(** * Conway: the Game of Life core of [main.cpp]

    A shallow embedding of the simulation core of the program: the
    [mapGrid] array, the neighbour-counting generation step of [main], the
    mouse callback that toggles a cell, and the loop that rebuilds the list
    of square translations.  The repository holds two near-identical
    programs; they share the step and the rebuild loop and differ in
    [mouse_button_callback], which is embedded once per program
    ([First], [Second]).

    Conventions.
    - A C array access outside the array is undefined behaviour: reads and
      writes return [option], and [None] is that outcome.  So is the cast of
      a [double] that does not fit an [int].
    - [int] values are [Z]; every [int] of the core stays far from the
      32-bit limits (loop counters below 81, a neighbour count below 9).
    - [float] and [double] are IEEE 754 binary32 and binary64 with
      round-to-nearest-even, as [SpecFloat] defines them. *)

From Stdlib Require Import ZArith Lia Bool.
From Stdlib Require Import Floats.SpecFloat.
From stdpp Require Import base option list list_numbers sorting.

Local Open Scope Z_scope.

(** ** Constants *)

Definition numberOfSeparators : Z := 80.
Definition windowWidth : Z := 1200.
Definition windowHeight : Z := 1200.

(** Values of the GLFW header macros the callback compares against. *)
Definition GLFW_MOUSE_BUTTON_LEFT : Z := 0.
Definition GLFW_PRESS : Z := 1.

(** ** Floating point *)

Abbreviation float := spec_float (only parsing).
Abbreviation double := spec_float (only parsing).

Definition float_of_int (z : Z) : float := binary_normalize 24 128 z 0 false.
Definition float_add : float → float → float := SFadd 24 128.
Definition float_mul : float → float → float := SFmul 24 128.
Definition float_div : float → float → float := SFdiv 24 128.

Definition double_of_int (z : Z) : double := binary_normalize 53 1024 z 0 false.
Definition double_sub : double → double → double := SFsub 53 1024.
Definition double_mul : double → double → double := SFmul 53 1024.
Definition double_div : double → double → double := SFdiv 53 1024.

(** The exact value of a finite float, as a fraction with a positive
    denominator. *)
Definition SF2frac (f : spec_float) : option (Z * Z) :=
  match f with
  | S754_zero _ => Some (0, 1)
  | S754_finite s m e =>
      Some (cond_Zopp s (Z.pos m) * 2 ^ Z.max e 0, 2 ^ Z.max (- e) 0)
  | _ => None
  end.

Definition INT_MIN : Z := - 2 ^ 31.
Definition INT_MAX : Z := 2 ^ 31 - 1.

(** [(int) d]: the fractional part is discarded (rounding toward zero); the
    behaviour is undefined when the result does not fit an [int]. *)
Definition double_to_int (d : double) : option Z :=
  '(n, k) ← SF2frac d;
  let q := Z.quot n k in
  if (INT_MIN <=? q) && (q <=? INT_MAX) then Some q else None.

(** The largest integer not above [d], for comparison with the cast. *)
Definition double_floor (d : double) : option Z :=
  '(n, k) ← SF2frac d; Some (n / k).

Definition viewPortLeft : float := float_of_int (-1).
Definition viewPortRight : float := float_of_int 1.
Definition viewPortTop : float := float_of_int 1.
Definition viewPortBottom : float := float_of_int (-1).
Definition viewPortSize : float := float_of_int 2.
Definition gridSquareSize : float :=
  float_div viewPortSize (float_of_int numberOfSeparators).

(** ** The grid: [bool mapGrid[numberOfSeparators][numberOfSeparators]] *)

Abbreviation grid := (list (list bool)) (only parsing).

(** The shape the C type gives every grid. *)
Definition grid_wf (g : grid) : Prop :=
  length g = Z.to_nat numberOfSeparators ∧
  Forall (λ row, length row = Z.to_nat numberOfSeparators) g.

(** [g[r][c]] as an rvalue. *)
Definition grid_read (g : grid) (r c : Z) : option bool :=
  if (r <? 0) || (c <? 0) then None
  else row ← g !! Z.to_nat r; row !! Z.to_nat c.

(** [g[r][c] = v]. *)
Definition grid_write (g : grid) (r c : Z) (v : bool) : option grid :=
  if (r <? 0) || (c <? 0) then None
  else
    row ← g !! Z.to_nat r;
    _ ← row !! Z.to_nat c;
    Some (<[Z.to_nat r := <[Z.to_nat c := v]> row]> g).

(** [bool a[N][N] = { false }]. *)
Definition all_false : grid :=
  replicate (Z.to_nat numberOfSeparators)
            (replicate (Z.to_nat numberOfSeparators) false).

(** ** Loops *)

(** [for (int i = lo; <n more rounds>; i++) body], the state threaded
    through; a [continue] is a body that returns its state. *)
Fixpoint for_loop {S : Type} (n : nat) (i : Z)
    (body : Z → S → option S) (s : S) : option S :=
  match n with
  | O => Some s
  | Datatypes.S n' => s' ← body i s; for_loop n' (i + 1) body s'
  end.

(** ** The generation step of [main] *)

(** The innermost loop body: one neighbour [(i + x, j + y)]. *)
Definition count_y (mapGrid : grid) (i j x : Z) (y : Z) (aliveNeighbours : Z)
    : option Z :=
  if (j + y <? 0) || (j + y >=? numberOfSeparators) then Some aliveNeighbours
  else if (x =? 0) && (y =? 0) then Some aliveNeighbours
  else
    b ← grid_read mapGrid (i + x) (j + y);
    Some (if b : bool then aliveNeighbours + 1 else aliveNeighbours).

Definition count_x (mapGrid : grid) (i j : Z) (x : Z) (aliveNeighbours : Z)
    : option Z :=
  if (i + x <? 0) || (i + x >=? numberOfSeparators) then Some aliveNeighbours
  else for_loop 3 (-1) (count_y mapGrid i j x) aliveNeighbours.

(** "Check 8 neighbourhood": the value of [aliveNeighbours] after the scan. *)
Definition count_neighbours (mapGrid : grid) (i j : Z) : option Z :=
  for_loop 3 (-1) (count_x mapGrid i j) 0.

(** The body of the scan for cell [(i, j)]: the count, then the if /
    else-if / else that stores into the local [newMapGrid].  The pair is
    the two arrays in scope, [(mapGrid, newMapGrid)]. *)
Definition update_cell (i j : Z) (b : grid * grid) : option (grid * grid) :=
  let (mapGrid, newMapGrid) := b in
  aliveNeighbours ← count_neighbours mapGrid i j;
  cur ← grid_read mapGrid i j;
  if (cur : bool) && ((aliveNeighbours <? 2) || (aliveNeighbours >? 3)) then
    n ← grid_write newMapGrid i j false; Some (mapGrid, n)
  else
    cur ← grid_read mapGrid i j;
    if negb cur && (aliveNeighbours =? 3) then
      n ← grid_write newMapGrid i j true; Some (mapGrid, n)
    else
      v ← grid_read mapGrid i j;
      n ← grid_write newMapGrid i j v; Some (mapGrid, n).

(** [mapGrid[i][j] = newMapGrid[i][j]]. *)
Definition copy_cell (i j : Z) (b : grid * grid) : option (grid * grid) :=
  let (mapGrid, newMapGrid) := b in
  v ← grid_read newMapGrid i j;
  m ← grid_write mapGrid i j v; Some (m, newMapGrid).

(** The nest [for i in [0, N) { for j in [0, N) { body } }] that the step
    and the rebuild share. *)
Definition rows {S : Type} (body : Z → Z → S → option S) : S → option S :=
  for_loop (Z.to_nat numberOfSeparators) 0
    (λ i, for_loop (Z.to_nat numberOfSeparators) 0 (λ j, body i j)).

(** "Conways Game of Life logic": the block run when [simulationRunning]. *)
Definition life_step (mapGrid : grid) : option grid :=
  b ← rows update_cell (mapGrid, all_false);
  b ← rows copy_cell b;
  Some b.1.

(** ** The squares to draw *)

Record vec2 := Vec2 { vec2_x : float; vec2_y : float }.

Definition clearTranslations (translations : list vec2) : list vec2 := [].

Definition addTranslation (x y : float) (translations : list vec2)
    : list vec2 :=
  translations ++ [Vec2 x y].

(** The body of the rebuild loop for cell [(i, j)]. *)
Definition add_if_alive (mapGrid : grid) (i j : Z) (translations : list vec2)
    : option (list vec2) :=
  b ← grid_read mapGrid i j;
  if b : bool then
    let x := float_add viewPortLeft (float_mul gridSquareSize (float_of_int j)) in
    let y := float_add viewPortBottom (float_mul gridSquareSize (float_of_int i)) in
    Some (addTranslation x y translations)
  else Some translations.

(** [square.clearTranslations()] and the loop after it. *)
Definition rebuild_translations (mapGrid : grid) (translations : list vec2)
    : option (list vec2) :=
  rows (add_if_alive mapGrid) (clearTranslations translations).

(** ** Program state and the frame *)

Record state := State {
  mapGrid : grid;
  simulationRunning : bool;
  translations : list vec2
}.

Definition set_mapGrid (g : grid) (st : state) : state :=
  State g (simulationRunning st) (translations st).

(** One pass through the body of [if ((now - lastFrameTime) >= fpsLimit)],
    the drawing left out. *)
Definition frame (st : state) : option state :=
  st ← (if simulationRunning st
        then g ← life_step (mapGrid st); Some (set_mapGrid g st)
        else Some st);
  ts ← rebuild_translations (mapGrid st) (translations st);
  Some (State (mapGrid st) (simulationRunning st) ts).

(** ** The mouse callback *)

(** [mapGrid[y][x] = !mapGrid[y][x]]. *)
Definition toggle (mapGrid : grid) (y x : Z) : option grid :=
  v ← grid_read mapGrid y x; grid_write mapGrid y x (negb v).

(** The program with the literal window size and no test of the indices.
    [xpos] and [ypos] are what [glfwGetCursorPos] stores. *)
Module First.

(** [(int)((xpos / 1200.0f) * numberOfSeparators)]; the [float] literal
    is converted to [double], exactly. *)
Definition cell_x (xpos : double) : option Z :=
  double_to_int
    (double_mul (double_div xpos (double_of_int 1200))
                (double_of_int numberOfSeparators)).

(** [(int)(((1200 - ypos) / 1200.0f) * numberOfSeparators)]. *)
Definition cell_y (ypos : double) : option Z :=
  double_to_int
    (double_mul
       (double_div (double_sub (double_of_int 1200) ypos) (double_of_int 1200))
       (double_of_int numberOfSeparators)).

Definition mouse_button_callback (st : state) (button action : Z)
    (xpos ypos : double) : option state :=
  if simulationRunning st then Some st
  else if (button =? GLFW_MOUSE_BUTTON_LEFT) && (action =? GLFW_PRESS) then
    x ← cell_x xpos;
    y ← cell_y ypos;
    g ← toggle (mapGrid st) y x;
    Some (set_mapGrid g st)
  else Some st.

End First.

(** The program with named constants and the test of the indices. *)
Module Second.

(** [(int)((xpos / windowWidth) * numberOfSeparators)]. *)
Definition cell_x (xpos : double) : option Z :=
  double_to_int
    (double_mul (double_div xpos (double_of_int windowWidth))
                (double_of_int numberOfSeparators)).

(** [(int)(((windowHeight - ypos) / windowHeight) * numberOfSeparators)]. *)
Definition cell_y (ypos : double) : option Z :=
  double_to_int
    (double_mul
       (double_div (double_sub (double_of_int windowHeight) ypos)
                   (double_of_int windowHeight))
       (double_of_int numberOfSeparators)).

Definition mouse_button_callback (st : state) (button action : Z)
    (xpos ypos : double) : option state :=
  if simulationRunning st then Some st
  else if (button =? GLFW_MOUSE_BUTTON_LEFT) && (action =? GLFW_PRESS) then
    x ← cell_x xpos;
    y ← cell_y ypos;
    if (x <? 0) || (x >=? numberOfSeparators)
       || (y <? 0) || (y >=? numberOfSeparators)
    then Some st
    else
      g ← toggle (mapGrid st) y x;
      Some (set_mapGrid g st)
  else Some st.

End Second.

(** ** Reference definitions

    What the specification says, in its own words, for comparison with the
    loops above. *)

Definition inside (k : Z) : Prop := 0 ≤ k < numberOfSeparators.

Definition insideb (k : Z) : bool := (0 <=? k) && (k <? numberOfSeparators).

(** The lookup that treats everything beyond the boundary as dead. *)
Definition isAlive (g : grid) (r c : Z) : bool :=
  insideb r && insideb c && default false (grid_read g r c).

(** The 8 offsets [(di, dj)], [(0, 0)] left out. *)
Definition offsets : list (Z * Z) :=
  [(-1, -1); (-1, 0); (-1, 1); (0, -1); (0, 1); (1, -1); (1, 0); (1, 1)].

(** How many of the 8 neighbours of [(i, j)] are inside the grid and
    alive. *)
Definition neighbour_count (g : grid) (i j : Z) : Z :=
  Z.of_nat (length (filter (λ d, isAlive g (i + d.1) (j + d.2) = true) offsets)).

(** What one neighbour adds to the count. *)
Definition contribution (g : grid) (i j x y : Z) : Z :=
  if (x =? 0) && (y =? 0) then 0 else Z.b2z (isAlive g (i + x) (j + y)).

(** The classic rule. *)
Definition life_rule (alive : bool) (count : Z) : bool :=
  if alive && ((count <? 2) || (count >? 3)) then false
  else if negb alive && (count =? 3) then true
  else alive.

(** The grid whose cell [(i, j)] is [f i j]. *)
Definition tabulate (f : Z → Z → bool) : grid :=
  (λ i, f i <$> seqZ 0 numberOfSeparators) <$> seqZ 0 numberOfSeparators.

(** The pure step: every cell decided from the one prior generation. *)
Definition step (g : grid) : grid :=
  tabulate (λ i j, life_rule (isAlive g i j) (neighbour_count g i j)).

(** All cell coordinates, row by row. *)
Definition cells_upto (rows_done : Z) : list (Z * Z) :=
  i ← seqZ 0 rows_done; (λ j, (i, j)) <$> seqZ 0 numberOfSeparators.

Definition cells : list (Z * Z) := cells_upto numberOfSeparators.

(** The alive coordinates in row-major order. *)
Definition alive_cells (g : grid) : list (Z * Z) :=
  filter (λ p, isAlive g p.1 p.2 = true) cells.

(** [(i, j)] comes before [(i', j')] in row-major order. *)
Definition row_major_lt (p q : Z * Z) : Prop :=
  p.1 < q.1 ∨ (p.1 = q.1 ∧ p.2 < q.2).

(** [cellSize = viewportSize / N] and the offset of a cell. *)
Definition cellSize : float :=
  float_div viewPortSize (float_of_int numberOfSeparators).

Definition cellToOffset (row col : Z) : vec2 :=
  Vec2 (float_add viewPortLeft (float_mul cellSize (float_of_int col)))
       (float_add viewPortBottom (float_mul cellSize (float_of_int row))).

(** The scaled device coordinates, before any rounding to an index. *)
Definition scale_x (px : double) : double :=
  double_mul (double_div px (double_of_int windowWidth))
             (double_of_int numberOfSeparators).

Definition scale_y (py : double) : double :=
  double_mul
    (double_div (double_sub (double_of_int windowHeight) py)
                (double_of_int windowHeight))
    (double_of_int numberOfSeparators).

(** Rounding toward zero, with no limit on the result. *)
Definition double_trunc (d : double) : option Z :=
  '(n, k) ← SF2frac d; Some (Z.quot n k).

(** The mapping with [floor], as the specification words it: a cell, or
    none when the floored indices leave the grid. *)
Definition deviceToCell_floor (px py : double) : option (Z * Z) :=
  col ← double_floor (scale_x px);
  row ← double_floor (scale_y py);
  if insideb row && insideb col then Some (row, col) else None.

(** The same with the rounding of the cast. *)
Definition deviceToCell (px py : double) : option (Z * Z) :=
  col ← double_trunc (scale_x px);
  row ← double_trunc (scale_y py);
  if insideb row && insideb col then Some (row, col) else None.

(** A left-button press at [(px, py)]. *)
Definition click (st : state) (px py : double) : option state :=
  Second.mouse_button_callback st GLFW_MOUSE_BUTTON_LEFT GLFW_PRESS px py.

(** The grid's only alive cells are [(r, c - 1)], [(r, c)], [(r, c + 1)]. *)
Definition horizontal_line (g : grid) (r c : Z) : Prop :=
  grid_wf g ∧ ∀ i j, isAlive g i j = true ↔ i = r ∧ c - 1 ≤ j ≤ c + 1.

(** The grid's only alive cells are [(r - 1, c)], [(r, c)], [(r + 1, c)]. *)
Definition vertical_line (g : grid) (r c : Z) : Prop :=
  grid_wf g ∧ ∀ i j, isAlive g i j = true ↔ j = c ∧ r - 1 ≤ i ≤ r + 1.

(** One step turns the line upright about its middle cell, a second one
    gives the first grid back. *)
Definition blinker_oscillates (g : grid) (r c : Z) : Prop :=
  ∃ g1 g2, life_step g = Some g1 ∧ vertical_line g1 r c ∧
           life_step g1 = Some g2 ∧ g2 = g.

(** The offset along one axis; both axes start at -1. *)
Definition axis_offset (k : Z) : float :=
  float_add (float_of_int (-1)) (float_mul cellSize (float_of_int k)).

(** The float is exactly the integer [z]. *)
Definition float_exact (f : float) (z : Z) : bool :=
  match SF2frac f with Some (n, k) => n =? z * k | None => false end.

(** The float lies in [[-1, 1)], the viewport without its far edge. *)
Definition in_viewport (f : float) : bool :=
  match SF2frac f with
  | Some (n, k) => (- k <=? n) && (n <? k)
  | None => false
  end.

#[global] Instance spec_float_eq_dec : EqDecision spec_float.
Proof. solve_decision. Defined.

(** A boolean test of the shape, and of a property of every cell. *)
Definition grid_wfb (g : grid) : bool :=
  (length g =? Z.to_nat numberOfSeparators)%nat
  && forallb (λ row, (length row =? Z.to_nat numberOfSeparators)%nat) g.

Definition all_cells (P : Z → Z → bool) : bool :=
  forallb (λ i, forallb (P i) (seqZ 0 numberOfSeparators))
          (seqZ 0 numberOfSeparators).

(** Example states. *)
Definition paused_empty : state := State all_false false [].
Definition running_empty : state := State all_false true [].

(** Row 0 holds a line on columns 0 to 2: its middle cell is on the edge. *)
Definition edge_line : grid :=
  <[0%nat := [true; true; true] ++ replicate 77 false]> all_false.

(** Row 5 holds a line on columns 4 to 6. *)
Definition inner_line : grid :=
  <[5%nat := replicate 4 false ++ [true; true; true] ++ replicate 73 false]>
    all_false.

(** ** The key callback *)

Definition GLFW_KEY_ESCAPE : Z := 256.
Definition GLFW_KEY_SPACE : Z := 32.

(** [key_callback].  The boolean is the window's should-close flag, which
    [glfwSetWindowShouldClose(window, GLFW_TRUE)] sets. *)
Definition key_callback (st : state) (shouldClose : bool)
    (key scancode action mods : Z) : state * bool :=
  if (key =? GLFW_KEY_ESCAPE) && (action =? GLFW_PRESS) then (st, true)
  else if (key =? GLFW_KEY_SPACE) && (action =? GLFW_PRESS) then
    (State (mapGrid st) (negb (simulationRunning st)) (translations st),
     shouldClose)
  else (st, shouldClose).

(** ** Drawing

    The calls that reach the graphics library, in the order they are made;
    a frame is observed through this list. *)

Inductive gl_call :=
| glViewport (x y width height : Z)
| glClear
| glUseProgram (program : Z)
| glUniform2f (location : Z) (v0 v1 : float)
| glBindVertexArray (array : Z)
| glDrawArrays (first count : Z)
| glDrawElements (count : Z)
| glfwSwapBuffers.

(** [framebuffer_size_callback]. *)
Definition framebuffer_size_callback (width height : Z) : list gl_call :=
  [glViewport 0 0 width height].

(** The separator lines. *)
Module Grid.

(** One round of the constructor's loop: the two end points of the upright
    line at [x], then those of the level line at the same height. *)
Definition push_separator (vertices : list float) (i : Z) : list float :=
  let x := float_add viewPortLeft (float_mul gridSquareSize (float_of_int i)) in
  vertices ++ [x; viewPortTop; float_of_int 0;
               x; viewPortBottom; float_of_int 0;
               viewPortRight; x; float_of_int 0;
               viewPortLeft; x; float_of_int 0].

(** [this->vertices] when the constructor is done. *)
Definition vertices : list float :=
  foldl push_separator [] (seqZ 0 numberOfSeparators).

(** [draw]: the lines, with no translation; the vertex count is
    [(int)(vertices.size() / 3)]. *)
Definition draw (vao translationLocation : Z) : list gl_call :=
  [glUniform2f translationLocation (float_of_int 0) (float_of_int 0);
   glBindVertexArray vao;
   glDrawArrays 0 (Z.of_nat (length vertices / 3));
   glBindVertexArray 0].

End Grid.

(** The squares of the alive cells. *)
Module Squares.

(** One round of the loop of [draw]: [translations[i]] is read without a
    check. *)
Definition draw_one (translations : list vec2) (translationLocation : Z)
    (i : Z) (calls : list gl_call) : option (list gl_call) :=
  t ← (if i <? 0 then None else translations !! Z.to_nat i);
  Some (calls ++ [glUniform2f translationLocation (vec2_x t) (vec2_y t);
                  glDrawElements 6]).

(** [draw]: nothing at all for an empty list, else one square per
    translation between binding and unbinding the vertex array. *)
Definition draw (translations : list vec2) (vao translationLocation : Z)
    : option (list gl_call) :=
  if (length translations =? 0)%nat then Some []
  else
    calls ← for_loop (length translations) 0
              (draw_one translations translationLocation)
              [glBindVertexArray vao];
    Some (calls ++ [glBindVertexArray 0]).

End Squares.

(** The handles the graphics library gave out at start-up. *)
Record handles := Handles {
  shaderProgram : Z;
  translationLocation : Z;
  gridVao : Z;
  squareVao : Z
}.

(** What [drawables] points to: the grid first, the squares second. *)
Inductive Drawable := TheGrid | TheSquares.

Definition drawables : list Drawable := [TheGrid; TheSquares].

(** [drawables[i]->draw(translationLocation)]; the squares are the one
    object whose list the rebuild loop has just filled. *)
Definition draw_drawable (h : handles) (st : state) (i : Z)
    (calls : list gl_call) : option (list gl_call) :=
  d ← (if i <? 0 then None else drawables !! Z.to_nat i);
  c ← match d with
      | TheGrid => Some (Grid.draw (gridVao h) (translationLocation h))
      | TheSquares =>
          Squares.draw (translations st) (squareVao h) (translationLocation h)
      end;
  Some (calls ++ c).

Definition draw_all (h : handles) (st : state) : option (list gl_call) :=
  for_loop (length drawables) 0 (draw_drawable h st) [].

(** ** Events and the main loop *)

(** What [glfwPollEvents] hands to the callbacks; a mouse event carries the
    cursor position that [glfwGetCursorPos] reports in the callback. *)
Inductive event :=
| Key (key scancode action mods : Z)
| MouseButton (button action mods : Z) (xpos ypos : double)
| FramebufferSize (width height : Z).

(** The state the callbacks see and change, and the calls they make. *)
Definition dispatch
    (mouse : state → Z → Z → double → double → option state)
    (acc : state * bool * list gl_call) (e : event)
    : option (state * bool * list gl_call) :=
  let '(st, shouldClose, calls) := acc in
  match e with
  | Key key scancode action mods =>
      let (st', shouldClose') :=
        key_callback st shouldClose key scancode action mods in
      Some (st', shouldClose', calls)
  | MouseButton button action mods xpos ypos =>
      st' ← mouse st button action xpos ypos;
      Some (st', shouldClose, calls)
  | FramebufferSize width height =>
      Some (st, shouldClose, calls ++ framebuffer_size_callback width height)
  end.

(** [glfwPollEvents()]: the pending events, one callback after another. *)
Fixpoint glfwPollEvents
    (mouse : state → Z → Z → double → double → option state)
    (events : list event) (acc : state * bool * list gl_call)
    : option (state * bool * list gl_call) :=
  match events with
  | [] => Some acc
  | e :: events' => acc' ← dispatch mouse acc e; glfwPollEvents mouse events' acc'
  end.

(** [1.0 / 15.0]. *)
Definition fpsLimit : double := double_div (double_of_int 1) (double_of_int 15).

Record loop_state := LoopState {
  program : state;
  windowShouldClose : bool;
  lastFrameTime : double;
  lastUpdateTime : double
}.

(** [(now - lastFrameTime) >= fpsLimit]. *)
Definition frame_due (now : double) (l : loop_state) : bool :=
  SFleb fpsLimit (double_sub now (lastFrameTime l)).

(** One pass through the body of the [while] loop of [main]: [now] is what
    [glfwGetTime] returns, [events] what is pending when the pass polls. *)
Definition loop_body
    (mouse : state → Z → Z → double → double → option state)
    (h : handles) (now : double) (events : list event) (l : loop_state)
    : option (loop_state * list gl_call) :=
  if frame_due now l then
    st ← frame (program l);
    drawn ← draw_all h st;
    '(st', shouldClose, calls) ←
      glfwPollEvents mouse events
        (st, windowShouldClose l,
         [glClear; glUseProgram (shaderProgram h)] ++ drawn ++ [glfwSwapBuffers]);
    Some (LoopState st' shouldClose now now, calls)
  else
    Some (LoopState (program l) (windowShouldClose l) (lastFrameTime l) now, []).

(** The [while (!glfwWindowShouldClose(window))] loop, over the passes for
    which a time and the pending events are given. *)
Fixpoint main_loop
    (mouse : state → Z → Z → double → double → option state)
    (h : handles) (inputs : list (double * list event)) (l : loop_state)
    : option (loop_state * list gl_call) :=
  match inputs with
  | [] => Some (l, [])
  | (now, events) :: inputs' =>
      if windowShouldClose l then Some (l, [])
      else
        '(l', calls) ← loop_body mouse h now events l;
        '(l'', calls') ← main_loop mouse h inputs' l';
        Some (l'', calls ++ calls')
  end.

(** Every mouse event of the list carries a position that the casts
    accept. *)
Definition castable (e : event) : Prop :=
  match e with
  | MouseButton _ _ _ xpos ypos =>
      is_Some (Second.cell_x xpos) ∧ is_Some (Second.cell_y ypos)
  | _ => True
  end.

(** The calls the resize events of a list make. *)
Definition viewport_calls (events : list event) : list gl_call :=
  events ≫= λ e,
    match e with
    | FramebufferSize width height => framebuffer_size_callback width height
    | _ => []
    end.


(** ** Further reference definitions *)

(** The grid mirrored in its diagonal. *)
Definition transpose (g : grid) : grid := tabulate (λ i j, isAlive g j i).

(** The grid's only alive cells are the 2 by 2 block with [(r, c)] as its
    corner of least indices. *)
Definition block (g : grid) (r c : Z) : Prop :=
  grid_wf g ∧ ∀ i j, isAlive g i j = true ↔ r ≤ i ≤ r + 1 ∧ c ≤ j ≤ c + 1.

(** The grid with its rows in the opposite order. *)
Definition flip (g : grid) : grid :=
  tabulate (λ i j, isAlive g (numberOfSeparators - 1 - i) j).

(** The block in the corner of least indices. *)
Definition corner_block : grid :=
  <[0%nat := [true; true] ++ replicate 78 false]>
    (<[1%nat := [true; true] ++ replicate 78 false]> all_false).

(** The calls that draw the squares at the given offsets. *)
Definition square_calls (h : handles) (offs : list vec2) : list gl_call :=
  match offs with
  | [] => []
  | _ =>
      [glBindVertexArray (squareVao h)]
      ++ (offs ≫= λ t, [glUniform2f (translationLocation h) (vec2_x t) (vec2_y t);
                        glDrawElements 6])
      ++ [glBindVertexArray 0]
  end.

(** The calls of one drawn frame showing the grid [g]. *)
Definition frame_calls (h : handles) (g : grid) : list gl_call :=
  [glClear; glUseProgram (shaderProgram h)]
  ++ Grid.draw (gridVao h) (translationLocation h)
  ++ square_calls h ((λ p, cellToOffset p.1 p.2) <$> alive_cells g)
  ++ [glfwSwapBuffers].

(** * Proofs *)

(** ** Indices *)

Lemma numberOfSeparators_val : numberOfSeparators = 80.
Proof. reflexivity. Qed.

Lemma insideb_true k : insideb k = true ↔ inside k.
Proof. unfold insideb, inside. rewrite andb_true_iff, Z.leb_le, Z.ltb_lt. tauto. Qed.

Lemma insideb_false k : insideb k = false ↔ ¬ inside k.
Proof. rewrite <- insideb_true. destruct (insideb k); split; congruence. Qed.

Lemma inside_to_nat k : inside k → (Z.to_nat k < Z.to_nat numberOfSeparators)%nat.
Proof. unfold inside. lia. Qed.

(** The guard of the scan, [k < 0 || k >= numberOfSeparators]. *)
Lemma guard_false k : inside k → (k <? 0) || (k >=? numberOfSeparators) = false.
Proof. unfold inside. lia. Qed.

Lemma guard_true k : ¬ inside k → (k <? 0) || (k >=? numberOfSeparators) = true.
Proof. unfold inside. lia. Qed.

(** ** Loops *)

Section loops.
Context {S : Type}.
Implicit Types (body : Z → S → option S) (P : Z → S → Prop).

(** A loop whose body keeps an invariant, and never fails under it, runs
    to its end and establishes the invariant there. *)
Lemma for_loop_inv P body n lo s :
  P lo s →
  (∀ k t, lo ≤ k < lo + Z.of_nat n → P k t →
          ∃ t', body k t = Some t' ∧ P (k + 1) t') →
  ∃ s', for_loop n lo body s = Some s' ∧ P (lo + Z.of_nat n) s'.
Proof.
  revert lo s. induction n as [|n IH]; intros lo s Hlo Hbody.
  - exists s. split; [done|]. by replace (lo + Z.of_nat 0) with lo by lia.
  - destruct (Hbody lo s) as (t & Ht & HP); [lia|done|].
    destruct (IH (lo + 1) t HP) as (s' & Hs' & HP').
    { intros k u Hk. apply Hbody. lia. }
    exists s'. split.
    + simpl. by rewrite Ht.
    + by replace (lo + Z.of_nat (Datatypes.S n)) with (lo + 1 + Z.of_nat n) by lia.
Qed.

(** The nest of two loops, with an invariant over the pair of counters:
    [P i j] holds before cell [(i, j)] is visited. *)
Lemma rows_inv (P : Z → Z → S → Prop) (body : Z → Z → S → option S) s :
  P 0 0 s →
  (∀ i j t, inside i → inside j → P i j t →
            ∃ t', body i j t = Some t' ∧ P i (j + 1) t') →
  (∀ i t, inside i → P i numberOfSeparators t → P (i + 1) 0 t) →
  ∃ s', rows body s = Some s' ∧ P numberOfSeparators 0 s'.
Proof.
  intros H0 Hcell Hrow. unfold rows.
  destruct (for_loop_inv (λ i t, P i 0 t)
              (λ i, for_loop (Z.to_nat numberOfSeparators) 0 (λ j, body i j))
              (Z.to_nat numberOfSeparators) 0 s H0) as (s' & Hs' & HP).
  - intros i t Hi HP.
    assert (inside i) as Hin by (unfold inside; lia).
    destruct (for_loop_inv (λ j u, P i j u) (λ j, body i j)
                (Z.to_nat numberOfSeparators) 0 t HP) as (t' & Ht' & HP').
    + intros j u Hj. apply Hcell; [done|]. unfold inside; lia.
    + exists t'. split; [done|]. apply Hrow; [done|].
      by replace (0 + Z.of_nat (Z.to_nat numberOfSeparators))
        with numberOfSeparators in HP' by (unfold numberOfSeparators; lia).
  - exists s'. split; [done|].
    by replace (0 + Z.of_nat (Z.to_nat numberOfSeparators))
      with numberOfSeparators in HP by (unfold numberOfSeparators; lia).
Qed.
End loops.

(** ** Reading and writing a grid *)

Lemma grid_wfb_true g : grid_wfb g = true → grid_wf g.
Proof.
  unfold grid_wfb, grid_wf. rewrite andb_true_iff, Nat.eqb_eq, forallb_forall.
  intros [Hl Hr]. split; [done|]. apply Forall_forall. intros row Hrow.
  apply Nat.eqb_eq, Hr. by apply list_elem_of_In.
Qed.

Lemma grid_row g r :
  grid_wf g → inside r →
  ∃ row, g !! Z.to_nat r = Some row ∧ length row = Z.to_nat numberOfSeparators.
Proof.
  intros [Hlen Hrows] Hr.
  destruct (lookup_lt_is_Some_2 g (Z.to_nat r)) as [row Hrow].
  { rewrite Hlen. by apply inside_to_nat. }
  exists row. split; [done|]. by eapply Forall_lookup_1 in Hrows.
Qed.

Lemma grid_read_inside g r c :
  grid_wf g → inside r → inside c → is_Some (grid_read g r c).
Proof.
  intros Hwf Hr Hc. destruct (grid_row g r Hwf Hr) as (row & Hrow & Hlen).
  unfold grid_read. replace ((r <? 0) || (c <? 0)) with false
    by (unfold inside in *; lia).
  rewrite Hrow. simpl. apply lookup_lt_is_Some_2. rewrite Hlen.
  by apply inside_to_nat.
Qed.

Lemma grid_read_outside g r c :
  grid_wf g → ¬ (inside r ∧ inside c) → grid_read g r c = None.
Proof.
  intros [Hlen Hrows] Hout. unfold grid_read.
  destruct ((r <? 0) || (c <? 0)) eqn:Hneg; [done|].
  destruct (g !! Z.to_nat r) as [row|] eqn:Hrow; [simpl|done].
  apply lookup_ge_None.
  pose proof (lookup_lt_Some _ _ _ Hrow) as Hlt.
  eapply Forall_lookup_1 in Hrows; [|done]. simpl in Hrows.
  rewrite Hrows. unfold inside in *. lia.
Qed.

Lemma grid_write_inside g r c v :
  grid_wf g → inside r → inside c →
  ∃ g', grid_write g r c v = Some g' ∧ grid_wf g' ∧
        grid_read g' r c = Some v ∧
        ∀ r' c', (r', c') ≠ (r, c) → grid_read g' r' c' = grid_read g r' c'.
Proof.
  intros Hwf Hr Hc. destruct (grid_row g r Hwf Hr) as (row & Hrow & Hlen).
  destruct Hwf as [Hglen Hrows].
  assert (Z.to_nat c < length row)%nat as Hclt
    by (rewrite Hlen; by apply inside_to_nat).
  destruct (lookup_lt_is_Some_2 row (Z.to_nat c) Hclt) as [old Hold].
  assert ((r <? 0) || (c <? 0) = false) as Hneg by (unfold inside in *; lia).
  exists (<[Z.to_nat r := <[Z.to_nat c := v]> row]> g). repeat split.
  - unfold grid_write. rewrite Hneg, Hrow. simpl. by rewrite Hold.
  - by rewrite length_insert.
  - apply Forall_insert; [done|]. by rewrite length_insert.
  - unfold grid_read. rewrite Hneg.
    rewrite list_lookup_insert_eq by (by eapply lookup_lt_Some).
    simpl. by rewrite list_lookup_insert_eq.
  - intros r' c' Hne. unfold grid_read.
    destruct ((r' <? 0) || (c' <? 0)) eqn:Hneg'; [done|].
    destruct (decide (Z.to_nat r = Z.to_nat r')) as [Heq|Hneq].
    + rewrite <- Heq. rewrite list_lookup_insert_eq by (by eapply lookup_lt_Some).
      rewrite Hrow. simpl. apply list_lookup_insert_ne.
      intros Hceq. apply Hne. unfold inside in *. f_equal; lia.
    + by rewrite list_lookup_insert_ne.
Qed.

(** Two grids of the right shape that agree on every cell are equal. *)
Lemma grid_ext g1 g2 :
  grid_wf g1 → grid_wf g2 →
  (∀ r c, inside r → inside c → grid_read g1 r c = grid_read g2 r c) →
  g1 = g2.
Proof.
  intros Hwf1 Hwf2 Heq. apply list_eq. intros i.
  destruct (decide (i < Z.to_nat numberOfSeparators)%nat) as [Hi|Hi].
  - assert (inside (Z.of_nat i)) as Hin by (unfold inside; lia).
    destruct (grid_row g1 _ Hwf1 Hin) as (row1 & Hrow1 & Hlen1).
    destruct (grid_row g2 _ Hwf2 Hin) as (row2 & Hrow2 & Hlen2).
    rewrite Nat2Z.id in Hrow1, Hrow2. rewrite Hrow1, Hrow2. f_equal.
    apply list_eq. intros j.
    destruct (decide (j < Z.to_nat numberOfSeparators)%nat) as [Hj|Hj].
    + assert (inside (Z.of_nat j)) as Hjn by (unfold inside; lia).
      specialize (Heq _ _ Hin Hjn). unfold grid_read in Heq.
      replace ((Z.of_nat i <? 0) || (Z.of_nat j <? 0)) with false in Heq by lia.
      rewrite !Nat2Z.id, Hrow1, Hrow2 in Heq. done.
    + rewrite !(proj2 (lookup_ge_None _ _)) by lia. done.
  - destruct Hwf1 as [Hl1 _], Hwf2 as [Hl2 _].
    rewrite !(proj2 (lookup_ge_None _ _)) by lia. done.
Qed.

Lemma tabulate_wf f : grid_wf (tabulate f).
Proof.
  split.
  - unfold tabulate. by rewrite length_fmap, length_seqZ.
  - unfold tabulate. apply Forall_fmap, Forall_forall. intros i _.
    unfold compose. by rewrite length_fmap, length_seqZ.
Qed.

Lemma tabulate_read f r c :
  inside r → inside c → grid_read (tabulate f) r c = Some (f r c).
Proof.
  intros Hr Hc. unfold grid_read, tabulate.
  replace ((r <? 0) || (c <? 0)) with false by (unfold inside in *; lia).
  rewrite list_lookup_fmap, lookup_seqZ_lt by (unfold inside in *; lia).
  cbn. rewrite list_lookup_fmap, lookup_seqZ_lt by (unfold inside in *; lia).
  cbn. f_equal. unfold inside in *. f_equal; lia.
Qed.

Lemma all_false_wf : grid_wf all_false.
Proof.
  split.
  - unfold all_false. by rewrite length_replicate.
  - unfold all_false. apply Forall_replicate. by rewrite length_replicate.
Qed.

Lemma isAlive_inside g r c :
  grid_wf g → inside r → inside c → grid_read g r c = Some (isAlive g r c).
Proof.
  intros Hwf Hr Hc. unfold isAlive.
  rewrite (proj2 (insideb_true r)), (proj2 (insideb_true c)) by done.
  by destruct (grid_read_inside g r c) as [v ->].
Qed.

Lemma isAlive_outside g r c : ¬ (inside r ∧ inside c) → isAlive g r c = false.
Proof.
  intros Hout. unfold isAlive.
  destruct (insideb r) eqn:Hr; [|done]. destruct (insideb c) eqn:Hc; [|done].
  exfalso. apply Hout. by rewrite <- !insideb_true.
Qed.

Lemma isAlive_true_inside g r c : isAlive g r c = true → inside r ∧ inside c.
Proof.
  intros H. destruct (decide (inside r ∧ inside c)) as [|Hout]; [done|].
  rewrite isAlive_outside in H by done. done.
Qed.

(** Grids of the right shape are equal when [isAlive] cannot tell them
    apart. *)
Lemma grid_ext_alive g1 g2 :
  grid_wf g1 → grid_wf g2 →
  (∀ r c, inside r → inside c → isAlive g1 r c = isAlive g2 r c) → g1 = g2.
Proof.
  intros Hwf1 Hwf2 Heq. apply grid_ext; [done..|]. intros r c Hr Hc.
  rewrite !isAlive_inside by done. f_equal. by apply Heq.
Qed.

Lemma all_cells_true P :
  all_cells P = true → ∀ i j, inside i → inside j → P i j = true.
Proof.
  unfold all_cells. rewrite forallb_forall. intros H i j Hi Hj.
  specialize (H i). rewrite forallb_forall in H.
  apply H; apply list_elem_of_In, elem_of_seqZ; unfold inside in *; lia.
Qed.

(** ** The neighbour scan *)

Lemma count_y_spec g i j x y n :
  grid_wf g → inside (i + x) →
  count_y g i j x y n = Some (n + contribution g i j x y).
Proof.
  intros Hwf Hx. unfold count_y, contribution.
  destruct (decide (inside (j + y))) as [Hy|Hy].
  - rewrite guard_false by done.
    destruct ((x =? 0) && (y =? 0)); [f_equal; lia|].
    rewrite isAlive_inside by done. cbn.
    destruct (isAlive g (i + x) (j + y)); cbn; f_equal; lia.
  - rewrite guard_true by done.
    rewrite (isAlive_outside g (i + x) (j + y)) by tauto.
    destruct ((x =? 0) && (y =? 0)); cbn; f_equal; lia.
Qed.

Lemma count_x_spec g i j x n :
  grid_wf g →
  count_x g i j x n =
    Some (n + contribution g i j x (-1) + contribution g i j x 0
            + contribution g i j x 1).
Proof.
  intros Hwf. unfold count_x.
  destruct (decide (inside (i + x))) as [Hx|Hx].
  - rewrite guard_false by done. cbn [for_loop].
    rewrite count_y_spec by done. cbn [mbind option_bind].
    rewrite count_y_spec by done. cbn [mbind option_bind].
    rewrite count_y_spec by done. cbn [mbind option_bind].
    f_equal.
  - rewrite guard_true by done. unfold contribution.
    rewrite !(isAlive_outside g (i + x)) by tauto.
    destruct (x =? 0); cbn; f_equal; lia.
Qed.

Lemma length_filter_cons {A} (P : A → Prop) `{∀ a, Decision (P a)} a l :
  length (filter P (a :: l)) =
    ((if decide (P a) then 1 else 0) + length (filter P l))%nat.
Proof. rewrite filter_cons. by destruct (decide (P a)). Qed.

(** The count as a sum over the 8 offsets. *)
Lemma neighbour_count_sum g i j :
  neighbour_count g i j =
    Z.b2z (isAlive g (i + -1) (j + -1)) + Z.b2z (isAlive g (i + -1) (j + 0))
    + Z.b2z (isAlive g (i + -1) (j + 1)) + Z.b2z (isAlive g (i + 0) (j + -1))
    + Z.b2z (isAlive g (i + 0) (j + 1)) + Z.b2z (isAlive g (i + 1) (j + -1))
    + Z.b2z (isAlive g (i + 1) (j + 0)) + Z.b2z (isAlive g (i + 1) (j + 1)).
Proof.
  unfold neighbour_count, offsets.
  rewrite !length_filter_cons, filter_nil. cbn [fst snd length].
  destruct (isAlive g (i + -1) (j + -1)), (isAlive g (i + -1) (j + 0)),
    (isAlive g (i + -1) (j + 1)), (isAlive g (i + 0) (j + -1)),
    (isAlive g (i + 0) (j + 1)), (isAlive g (i + 1) (j + -1)),
    (isAlive g (i + 1) (j + 0)), (isAlive g (i + 1) (j + 1)); reflexivity.
Qed.

Lemma count_neighbours_spec g i j :
  grid_wf g → count_neighbours g i j = Some (neighbour_count g i j).
Proof.
  intros Hwf. unfold count_neighbours. cbn [for_loop].
  rewrite count_x_spec by done. cbn [mbind option_bind].
  rewrite count_x_spec by done. cbn [mbind option_bind].
  rewrite count_x_spec by done. cbn [mbind option_bind].
  f_equal. rewrite neighbour_count_sum. unfold contribution.
  replace (-1 + 1) with 0 by done. replace (0 + 1) with 1 by done.
  cbn [Z.eqb andb]. lia.
Qed.

Lemma neighbour_count_range g i j : 0 ≤ neighbour_count g i j ≤ 8.
Proof.
  unfold neighbour_count. split; [lia|].
  pose proof (length_filter (λ d, isAlive g (i + d.1) (j + d.2) = true) offsets) as H.
  change (length offsets) with 8%nat in H. lia.
Qed.

(** ** The step *)

Lemma update_cell_spec g n i j :
  grid_wf g → grid_wf n → inside i → inside j →
  ∃ n', update_cell i j (g, n) = Some (g, n') ∧
        grid_write n i j (life_rule (isAlive g i j) (neighbour_count g i j))
          = Some n'.
Proof.
  intros Hg Hn Hi Hj. unfold update_cell, life_rule.
  rewrite count_neighbours_spec by done. cbn [mbind option_bind].
  rewrite isAlive_inside by done. cbn [mbind option_bind].
  destruct (isAlive g i j && ((neighbour_count g i j <? 2)
                              || (neighbour_count g i j >? 3))).
  { destruct (grid_write_inside n i j false Hn Hi Hj) as (n' & -> & _).
    by exists n'. }
  destruct (negb (isAlive g i j) && (neighbour_count g i j =? 3)).
  { destruct (grid_write_inside n i j true Hn Hi Hj) as (n' & -> & _).
    by exists n'. }
  destruct (grid_write_inside n i j (isAlive g i j) Hn Hi Hj) as (n' & -> & _).
  by exists n'.
Qed.

Lemma copy_cell_spec m n i j :
  grid_wf n → grid_wf m → inside i → inside j →
  ∃ m', copy_cell i j (m, n) = Some (m', n) ∧
        grid_write m i j (isAlive n i j) = Some m'.
Proof.
  intros Hn Hm Hi Hj. unfold copy_cell.
  rewrite isAlive_inside by done. cbn [mbind option_bind].
  destruct (grid_write_inside m i j (isAlive n i j) Hm Hi Hj) as (m' & -> & _).
  by exists m'.
Qed.

(** A nest that stores [f i j] into cell [(i, j)] of one array of its state,
    and leaves the rest of the state alone, ends with that array equal to
    the table of [f]. *)
Lemma rows_fill {S X : Type} (tgt : S → grid) (rest : S → X) (ok : X → Prop)
    (f : X → Z → Z → bool) (body : Z → Z → S → option S) :
  (∀ i j s, ok (rest s) → grid_wf (tgt s) → inside i → inside j →
     ∃ s', body i j s = Some s' ∧ rest s' = rest s ∧
           grid_write (tgt s) i j (f (rest s) i j) = Some (tgt s')) →
  ∀ s, ok (rest s) → grid_wf (tgt s) →
    ∃ s', rows body s = Some s' ∧ rest s' = rest s ∧
          tgt s' = tabulate (f (rest s)).
Proof.
  intros Hbody s Hok Hwf.
  destruct (rows_inv
    (λ i j t, rest t = rest s ∧ grid_wf (tgt t) ∧
       ∀ r c, inside r → inside c → r < i ∨ (r = i ∧ c < j) →
              grid_read (tgt t) r c = Some (f (rest s) r c))
    body s) as (s' & Hs' & Hrest & Hwf' & Hall).
  - split; [done|]. split; [done|]. unfold inside. intros; lia.
  - intros i j t Hi Hj (Hrest & Hwft & Hdone).
    destruct (Hbody i j t) as (t' & Ht' & Hrest' & Hw); [by rewrite Hrest|done..|].
    exists t'. split; [done|].
    destruct (grid_write_inside (tgt t) i j (f (rest t) i j) Hwft Hi Hj)
      as (g' & Hg' & Hwfg & Hsame & Hother).
    rewrite Hw in Hg'. injection Hg' as <-.
    split; [congruence|]. split; [done|].
    intros r c Hr Hc Hlt.
    destruct (decide ((r, c) = (i, j))) as [[= -> ->]|Hne].
    + by rewrite Hsame, Hrest.
    + rewrite Hother by done. apply Hdone; [done..|].
      destruct (decide (r = i)) as [->|]; [|lia].
      assert (c ≠ j) by congruence. lia.
  - intros i t Hi (Hrest & Hwft & Hdone). split; [done|]. split; [done|].
    intros r c Hr Hc Hlt. apply Hdone; [done..|]. unfold inside in *. lia.
  - exists s'. split; [done|]. split; [done|].
    apply grid_ext; [done|apply tabulate_wf|].
    intros r c Hr Hc. rewrite tabulate_read by done.
    apply Hall; [done..|]. unfold inside in *. lia.
Qed.

Lemma tabulate_isAlive g : grid_wf g → tabulate (isAlive g) = g.
Proof.
  intros Hwf. apply grid_ext; [apply tabulate_wf|done|].
  intros r c Hr Hc. by rewrite tabulate_read, isAlive_inside.
Qed.

(** The scan leaves [mapGrid] as it was and fills [newMapGrid] with the
    next generation. *)
Lemma rows_update_cell g n :
  grid_wf g → grid_wf n → rows update_cell (g, n) = Some (g, step g).
Proof.
  intros Hg Hn.
  destruct (rows_fill snd fst grid_wf
    (λ g i j, life_rule (isAlive g i j) (neighbour_count g i j))
    update_cell) with (s := (g, n)) as ([g' n'] & Hrun & Hrest & Htgt);
    [|done..|].
  - intros i j [a t] Ha Ht Hi Hj. cbn [fst snd] in *.
    destruct (update_cell_spec a t i j) as (t' & Hrun & Hw); [done..|].
    by exists (a, t').
  - cbn [fst snd] in *. by rewrite Hrun, Hrest, Htgt.
Qed.

Lemma rows_copy_cell m n :
  grid_wf m → grid_wf n → rows copy_cell (m, n) = Some (n, n).
Proof.
  intros Hm Hn.
  destruct (rows_fill fst snd grid_wf isAlive copy_cell)
    with (s := (m, n)) as ([m' n'] & Hrun & Hrest & Htgt); [|done..|].
  - intros i j [a t] Ht Ha Hi Hj. cbn [fst snd] in *.
    destruct (copy_cell_spec a t i j) as (a' & Hrun & Hw); [done..|].
    by exists (a', t).
  - cbn [fst snd] in *. rewrite Hrun, Hrest, Htgt.
    by rewrite tabulate_isAlive.
Qed.

Lemma step_wf g : grid_wf (step g).
Proof. apply tabulate_wf. Qed.

Lemma life_step_spec g : grid_wf g → life_step g = Some (step g).
Proof.
  intros Hwf. unfold life_step.
  rewrite rows_update_cell by (done || apply all_false_wf).
  cbn [mbind option_bind].
  rewrite rows_copy_cell by (done || apply step_wf). done.
Qed.

Lemma isAlive_step g i j :
  inside i → inside j →
  isAlive (step g) i j = life_rule (isAlive g i j) (neighbour_count g i j).
Proof.
  intros Hi Hj. pose proof (isAlive_inside (step g) i j (step_wf g) Hi Hj) as H.
  unfold step in H at 1. rewrite tabulate_read in H by done. congruence.
Qed.

(** ** Row-major enumeration *)

Lemma seqZ_sorted m n : StronglySorted Z.lt (seqZ m n).
Proof.
  destruct (decide (0 ≤ n)) as [Hn|Hn]; [|rewrite seqZ_nil by lia; constructor].
  rewrite <- (Z2Nat.id n Hn). generalize (Z.to_nat n) as k. clear n Hn.
  induction k as [|k IH]; [rewrite seqZ_nil by lia; constructor|].
  rewrite seqZ_S. apply StronglySorted_app; repeat split.
  - intros a b Ha Hb. apply elem_of_seqZ in Ha.
    apply list_elem_of_singleton in Hb. lia.
  - done.
  - repeat constructor.
Qed.

Lemma StronglySorted_filter {A} (R : relation A) (P : A → Prop)
    `{∀ a, Decision (P a)} (l : list A) :
  StronglySorted R l → StronglySorted R (filter P l).
Proof.
  induction 1 as [|a l Hl IH Ha]; [constructor|].
  rewrite filter_cons. destruct (decide (P a)); [|done].
  constructor; [done|]. apply Forall_forall. intros b Hb.
  apply list_elem_of_filter in Hb as [_ Hb].
  by eapply Forall_forall in Ha.
Qed.

Lemma cells_upto_0 : cells_upto 0 = [].
Proof. unfold cells_upto. by rewrite (seqZ_nil 0 0) by lia. Qed.

Lemma cells_upto_succ i :
  0 ≤ i →
  cells_upto (i + 1) = cells_upto i ++ ((λ j, (i, j)) <$> seqZ 0 numberOfSeparators).
Proof.
  intros Hi. unfold cells_upto. rewrite (seqZ_app 0 i 1) by lia.
  rewrite bind_app. f_equal.
Qed.

Lemma elem_of_cells_upto k r c :
  (r, c) ∈ cells_upto k ↔ 0 ≤ r < k ∧ inside c.
Proof.
  unfold cells_upto. rewrite list_elem_of_bind. split.
  - intros (i & Hrc & Hi). apply list_elem_of_fmap in Hrc as (j & [= -> ->] & Hj).
    apply elem_of_seqZ in Hi, Hj. unfold inside. lia.
  - intros [Hr Hc]. exists r. split.
    + apply list_elem_of_fmap. exists c. split; [done|].
      apply elem_of_seqZ. unfold inside in Hc. lia.
    + apply elem_of_seqZ. lia.
Qed.

Lemma elem_of_cells r c : (r, c) ∈ cells ↔ inside r ∧ inside c.
Proof. unfold cells. by rewrite elem_of_cells_upto. Qed.

Lemma row_sorted i :
  StronglySorted row_major_lt ((λ j, (i, j)) <$> seqZ 0 numberOfSeparators).
Proof.
  apply (StronglySorted_fmap _ Z.lt); [|apply seqZ_sorted].
  intros a b Hab. right. cbn. lia.
Qed.

Lemma cells_upto_sorted k : StronglySorted row_major_lt (cells_upto (Z.of_nat k)).
Proof.
  induction k as [|k IH];
    [change (Z.of_nat 0) with 0; rewrite cells_upto_0; constructor|].
  rewrite Nat2Z.inj_succ, <- Z.add_1_r, cells_upto_succ by lia.
  apply StronglySorted_app; repeat split; [|done|apply row_sorted].
  intros [r c] [r' c'] Hp Hq. apply elem_of_cells_upto in Hp.
  apply list_elem_of_fmap in Hq as (j & [= -> ->] & _). left. cbn. lia.
Qed.

Lemma cells_sorted : StronglySorted row_major_lt cells.
Proof.
  unfold cells. rewrite <- (Z2Nat.id numberOfSeparators) by done.
  apply cells_upto_sorted.
Qed.

Lemma row_major_lt_irrefl p : ¬ row_major_lt p p.
Proof. unfold row_major_lt. lia. Qed.

Lemma StronglySorted_NoDup {A} (R : relation A) (l : list A) :
  (∀ a, ¬ R a a) → StronglySorted R l → NoDup l.
Proof.
  intros Hirr. induction 1 as [|a l Hl IH Ha]; constructor; [|done].
  intros Hin. eapply Forall_forall in Ha; [|done]. by apply Hirr in Ha.
Qed.

Lemma elem_of_alive_cells g r c : (r, c) ∈ alive_cells g ↔ isAlive g r c = true.
Proof.
  unfold alive_cells. rewrite list_elem_of_filter, elem_of_cells. cbn.
  split; [tauto|]. intros H. split; [done|]. by eapply isAlive_true_inside.
Qed.

Lemma alive_cells_sorted g : StronglySorted row_major_lt (alive_cells g).
Proof. apply StronglySorted_filter, cells_sorted. Qed.

Lemma alive_cells_NoDup g : NoDup (alive_cells g).
Proof.
  eapply StronglySorted_NoDup;
    [apply row_major_lt_irrefl|apply alive_cells_sorted].
Qed.

(** ** The rebuild loop *)

Lemma add_if_alive_spec g i j ts :
  grid_wf g → inside i → inside j →
  add_if_alive g i j ts =
    Some (ts ++ ((λ p, cellToOffset p.1 p.2) <$>
                   filter (λ p, isAlive g p.1 p.2 = true) [(i, j)])).
Proof.
  intros Hwf Hi Hj. unfold add_if_alive.
  rewrite isAlive_inside by done. cbn [mbind option_bind].
  rewrite filter_cons, filter_nil. cbn [fst snd].
  destruct (isAlive g i j); cbn; [done|]. by rewrite app_nil_r.
Qed.

Lemma rebuild_translations_spec g old :
  grid_wf g →
  rebuild_translations g old =
    Some ((λ p, cellToOffset p.1 p.2) <$> alive_cells g).
Proof.
  intros Hwf. unfold rebuild_translations, clearTranslations.
  set (off := λ p : Z * Z, cellToOffset p.1 p.2).
  set (alive := λ p : Z * Z, isAlive g p.1 p.2 = true).
  destruct (rows_inv
    (λ i j ts, ts = off <$> filter alive
                 (cells_upto i ++ ((λ c, (i, c)) <$> seqZ 0 j)))
    (add_if_alive g) []) as (ts & Hts & ->).
  - by rewrite cells_upto_0, (seqZ_nil 0 0) by lia.
  - intros i j ts Hi Hj ->. eexists. split; [by apply add_if_alive_spec|].
    rewrite (seqZ_app 0 j 1) by (unfold inside in *; lia).
    replace (0 + j) with j by lia.
    rewrite (seqZ_cons j 1), (seqZ_nil (Z.succ j)) by lia.
    rewrite fmap_app, app_assoc.
    change ((λ c : Z, (i, c)) <$> [j]) with [(i, j)].
    by rewrite !filter_app, !fmap_app.
  - intros i ts Hi ->. rewrite cells_upto_succ by (unfold inside in *; lia).
    rewrite (seqZ_nil 0 0) by lia. cbn [fmap list_fmap]. by rewrite app_nil_r.
  - rewrite Hts. rewrite (seqZ_nil 0 0) by lia. cbn [fmap list_fmap].
    by rewrite app_nil_r.
Qed.

(** ** Casts *)

Lemma SF2frac_pos d n k : SF2frac d = Some (n, k) → 0 < k.
Proof.
  destruct d as [?| ? | |s m e]; cbn; intros [= <- <-]; [lia|].
  apply Z.pow_pos_nonneg; lia.
Qed.

Lemma double_to_int_trunc d q : double_to_int d = Some q → double_trunc d = Some q.
Proof.
  unfold double_to_int, double_trunc.
  destruct (SF2frac d) as [[n k]|]; cbn; [|done].
  by destruct ((INT_MIN <=? n ÷ k) && (n ÷ k <=? INT_MAX)).
Qed.

Lemma double_trunc_to_int d q :
  double_trunc d = Some q → INT_MIN ≤ q ≤ INT_MAX → double_to_int d = Some q.
Proof.
  unfold double_to_int, double_trunc.
  destruct (SF2frac d) as [[n k]|]; cbn; [|done]. intros [= <-] Hq.
  by replace ((INT_MIN <=? n ÷ k) && (n ÷ k <=? INT_MAX)) with true by lia.
Qed.

(** Rounding toward zero and rounding down agree from 0 upward. *)
Lemma double_trunc_floor d q f :
  double_trunc d = Some q → double_floor d = Some f → 0 ≤ f → q = f.
Proof.
  unfold double_floor, double_trunc.
  destruct (SF2frac d) as [[n k]|] eqn:Hd; cbn; [|done].
  intros [= <-] [= <-] Hf. apply SF2frac_pos in Hd.
  apply Z.quot_div_nonneg; [|done].
  destruct (decide (0 ≤ n)) as [|Hn]; [done|].
  assert (n / k < 0) by (apply Z.div_lt_upper_bound; lia). lia.
Qed.

(** On whole pixels of the 1200 by 1200 window the rounded binary64
    arithmetic gives the exact quotients. *)
Lemma cell_x_on_pixels p :
  0 ≤ p < windowWidth →
  Second.cell_x (double_of_int p)
    = Some (p * numberOfSeparators / windowWidth).
Proof.
  intros Hp.
  assert (forallb (λ p, bool_decide
            (Second.cell_x (double_of_int p)
               = Some (p * numberOfSeparators / windowWidth)))
          (seqZ 0 windowWidth) = true) as H by (vm_compute; reflexivity).
  rewrite forallb_forall in H. specialize (H p).
  rewrite bool_decide_eq_true in H. apply H.
  apply list_elem_of_In, elem_of_seqZ. lia.
Qed.

Lemma cell_y_on_pixels p :
  0 ≤ p ≤ windowHeight →
  Second.cell_y (double_of_int p)
    = Some ((windowHeight - p) * numberOfSeparators / windowHeight).
Proof.
  intros Hp.
  assert (forallb (λ p, bool_decide
            (Second.cell_y (double_of_int p)
               = Some ((windowHeight - p) * numberOfSeparators / windowHeight)))
          (seqZ 0 (windowHeight + 1)) = true) as H by (vm_compute; reflexivity).
  rewrite forallb_forall in H. specialize (H p).
  rewrite bool_decide_eq_true in H. apply H.
  apply list_elem_of_In, elem_of_seqZ. lia.
Qed.

(** ** The mouse callback *)

Lemma set_mapGrid_id st : set_mapGrid (mapGrid st) st = st.
Proof. by destruct st. Qed.

Lemma toggle_spec g row col :
  grid_wf g → inside row → inside col →
  ∃ g1, toggle g row col = Some g1 ∧ grid_wf g1 ∧
        isAlive g1 row col = negb (isAlive g row col) ∧
        (∀ r c, (r, c) ≠ (row, col) → isAlive g1 r c = isAlive g r c) ∧
        toggle g1 row col = Some g.
Proof.
  intros Hwf Hr Hc. unfold toggle at 1.
  rewrite isAlive_inside by done. cbn [mbind option_bind].
  destruct (grid_write_inside g row col (negb (isAlive g row col)) Hwf Hr Hc)
    as (g1 & Hg1 & Hwf1 & Hsame & Hother).
  assert (isAlive g1 row col = negb (isAlive g row col)) as Hflip.
  { pose proof (isAlive_inside g1 row col Hwf1 Hr Hc). congruence. }
  assert (∀ r c, (r, c) ≠ (row, col) → isAlive g1 r c = isAlive g r c) as Hrest.
  { intros r c Hne. unfold isAlive. by rewrite Hother. }
  exists g1. repeat (split; [done|]).
  unfold toggle. rewrite Hsame. cbn [mbind option_bind]. rewrite negb_involutive.
  destruct (grid_write_inside g1 row col (isAlive g row col) Hwf1 Hr Hc)
    as (g2 & Hg2 & Hwf2 & Hsame2 & Hother2).
  rewrite Hg2. f_equal. apply grid_ext; [done..|]. intros r c Hr' Hc'.
  destruct (decide ((r, c) = (row, col))) as [[= -> ->]|Hne].
  - by rewrite Hsame2, isAlive_inside.
  - by rewrite Hother2, Hother.
Qed.

Lemma toggle_outside g y x :
  grid_wf g → ¬ (inside y ∧ inside x) → toggle g y x = None.
Proof. intros Hwf Hout. unfold toggle. by rewrite grid_read_outside. Qed.

(** The test of the second program is the negation of [inside]. *)
Lemma second_guard x y :
  (x <? 0) || (x >=? numberOfSeparators)
  || (y <? 0) || (y >=? numberOfSeparators) = negb (insideb y && insideb x).
Proof. unfold insideb. lia. Qed.

Lemma click_paused st px py x y :
  simulationRunning st = false →
  Second.cell_x px = Some x → Second.cell_y py = Some y →
  click st px py =
    if insideb y && insideb x
    then g ← toggle (mapGrid st) y x; Some (set_mapGrid g st)
    else Some st.
Proof.
  intros Hrun Hx Hy. unfold click, Second.mouse_button_callback.
  rewrite Hrun, Hx, Hy, !Z.eqb_refl. cbn [andb mbind option_bind].
  rewrite second_guard. by destruct (insideb y && insideb x).
Qed.

(** Outside the grid the second program does nothing... *)
Lemma second_callback_outside st px py x y :
  simulationRunning st = false →
  Second.cell_x px = Some x → Second.cell_y py = Some y →
  ¬ (inside y ∧ inside x) →
  Second.mouse_button_callback st GLFW_MOUSE_BUTTON_LEFT GLFW_PRESS px py
    = Some st.
Proof.
  intros Hrun Hx Hy Hout. fold (click st px py).
  rewrite (click_paused st px py x y) by done.
  destruct (insideb y && insideb x) eqn:Hin; [|done].
  apply andb_true_iff in Hin as [Hiy Hix]. rewrite insideb_true in Hiy, Hix.
  tauto.
Qed.

(** ...and the first one indexes the array out of bounds. *)
Lemma first_callback_outside st px py x y :
  simulationRunning st = false → grid_wf (mapGrid st) →
  First.cell_x px = Some x → First.cell_y py = Some y →
  ¬ (inside y ∧ inside x) →
  First.mouse_button_callback st GLFW_MOUSE_BUTTON_LEFT GLFW_PRESS px py = None.
Proof.
  intros Hrun Hwf Hx Hy Hout. unfold First.mouse_button_callback.
  rewrite Hrun, Hx, Hy, !Z.eqb_refl. cbn [andb mbind option_bind].
  by rewrite toggle_outside.
Qed.

(** ** Lines of three *)

(** Replace a comparison by its value, when [lia] can tell it. *)
Ltac settle b :=
  first [ replace b with true by lia | replace b with false by lia ].

(** The comparisons along the axis on which the line is one cell thick... *)
Ltac settle_thin e m :=
  settle (e + -1 =? m); settle (e + 0 =? m); settle (e + 1 =? m);
  settle (e =? m); settle (m - 1 <=? e); settle (e <=? m + 1).

(** ...and along the axis on which it is three cells long. *)
Ltac settle_long e m :=
  settle (m - 1 <=? e + -1); settle (m - 1 <=? e + 0); settle (m - 1 <=? e + 1);
  settle (e + -1 <=? m + 1); settle (e + 0 <=? m + 1); settle (e + 1 <=? m + 1);
  settle (m - 1 <=? e); settle (e <=? m + 1); settle (e =? m).

(** Where a cell lies relative to the middle cell: five bands across the
    line, seven along it.  In each band every comparison is settled. *)
Ltac settle_bands thin t long l :=
  assert (thin < t - 1 ∨ thin = t - 1 ∨ thin = t ∨ thin = t + 1 ∨ t + 1 < thin)
    as [?|[?|[?|[?|?]]]] by lia; settle_thin thin t;
  (assert (long < l - 2 ∨ long = l - 2 ∨ long = l - 1 ∨ long = l
           ∨ long = l + 1 ∨ long = l + 2 ∨ l + 2 < long)
     as [?|[?|[?|[?|[?|[?|?]]]]]] by lia;
   settle_long long l; reflexivity).

Lemma horizontal_line_alive g r c :
  horizontal_line g r c →
  ∀ i j, isAlive g i j = (i =? r) && ((c - 1 <=? j) && (j <=? c + 1)).
Proof.
  intros [_ H] i j. apply eq_true_iff_eq. rewrite H.
  rewrite !andb_true_iff, Z.eqb_eq, !Z.leb_le. tauto.
Qed.

Lemma vertical_line_alive g r c :
  vertical_line g r c →
  ∀ i j, isAlive g i j = (j =? c) && ((r - 1 <=? i) && (i <=? r + 1)).
Proof.
  intros [_ H] i j. apply eq_true_iff_eq. rewrite H.
  rewrite !andb_true_iff, Z.eqb_eq, !Z.leb_le. tauto.
Qed.

Lemma horizontal_line_inside g r c :
  horizontal_line g r c → inside r ∧ inside (c - 1) ∧ inside (c + 1).
Proof.
  intros [_ H].
  destruct (isAlive_true_inside g r (c - 1)) as [? ?]; [apply H; lia|].
  destruct (isAlive_true_inside g r (c + 1)) as [? ?]; [apply H; lia|].
  done.
Qed.

Lemma vertical_line_inside g r c :
  vertical_line g r c → inside c ∧ inside (r - 1) ∧ inside (r + 1).
Proof.
  intros [_ H].
  destruct (isAlive_true_inside g (r - 1) c) as [? ?]; [apply H; lia|].
  destruct (isAlive_true_inside g (r + 1) c) as [? ?]; [apply H; lia|].
  done.
Qed.

(** A lying line with room above and below stands up. *)
Lemma step_horizontal_line g r c :
  horizontal_line g r c → inside (r - 1) → inside (r + 1) →
  vertical_line (step g) r c.
Proof.
  intros Hline Hup Hdown.
  destruct (horizontal_line_inside g r c Hline) as (Hr & Hl & Hrt).
  split; [apply step_wf|]. intros i j.
  destruct (decide (inside i ∧ inside j)) as [[Hi Hj]|Hout].
  - rewrite isAlive_step by done.
    rewrite neighbour_count_sum, !(horizontal_line_alive g r c Hline).
    unfold life_rule.
    transitivity ((j =? c) && ((r - 1 <=? i) && (i <=? r + 1)) = true).
    + apply eq_iff_eq_true. clear. settle_bands i r j c.
    + rewrite !andb_true_iff, Z.eqb_eq, !Z.leb_le. tauto.
  - rewrite isAlive_outside by done. split; [done|]. intros [-> Hband].
    exfalso. apply Hout. unfold inside in *. lia.
Qed.

(** A standing line with room left and right lies down. *)
Lemma step_vertical_line g r c :
  vertical_line g r c → inside (c - 1) → inside (c + 1) →
  horizontal_line (step g) r c.
Proof.
  intros Hline Hleft Hright.
  destruct (vertical_line_inside g r c Hline) as (Hc & Hu & Hd).
  split; [apply step_wf|]. intros i j.
  destruct (decide (inside i ∧ inside j)) as [[Hi Hj]|Hout].
  - rewrite isAlive_step by done.
    rewrite neighbour_count_sum, !(vertical_line_alive g r c Hline).
    unfold life_rule.
    transitivity ((i =? r) && ((c - 1 <=? j) && (j <=? c + 1)) = true).
    + apply eq_iff_eq_true. clear. settle_bands j c i r.
    + rewrite !andb_true_iff, Z.eqb_eq, !Z.leb_le. tauto.
  - rewrite isAlive_outside by done. split; [done|]. intros [-> Hband].
    exfalso. apply Hout. unfold inside in *. lia.
Qed.

Lemma horizontal_line_unique g g' r c :
  horizontal_line g r c → horizontal_line g' r c → g = g'.
Proof.
  intros Hg Hg'. apply grid_ext_alive; [apply Hg|apply Hg'|].
  intros i j _ _.
  by rewrite (horizontal_line_alive g r c), (horizontal_line_alive g' r c).
Qed.

(** The shape of a lying line, tested cell by cell. *)
Lemma horizontal_line_check g r c :
  grid_wfb g = true →
  insideb r && insideb (c - 1) && insideb (c + 1) = true →
  all_cells (λ i j, eqb (isAlive g i j)
                        ((i =? r) && ((c - 1 <=? j) && (j <=? c + 1)))) = true →
  horizontal_line g r c.
Proof.
  intros Hwf Hin Hall. split; [by apply grid_wfb_true|]. intros i j.
  apply andb_true_iff in Hin as [Hin Hright].
  apply andb_true_iff in Hin as [Hr Hleft].
  rewrite insideb_true in Hr, Hleft, Hright.
  destruct (decide (inside i ∧ inside j)) as [[Hi Hj]|Hout].
  - pose proof (all_cells_true _ Hall i j Hi Hj) as H. cbn beta in H.
    apply eqb_prop in H. rewrite H.
    rewrite !andb_true_iff, Z.eqb_eq, !Z.leb_le. tauto.
  - rewrite isAlive_outside by done. split; [done|]. intros [-> Hband].
    exfalso. apply Hout. unfold inside in *. lia.
Qed.

(** No line can stand on a middle cell of the first row: its upper end
    would be outside the grid. *)
Lemma no_vertical_line_at_edge g c : ¬ vertical_line g 0 c.
Proof.
  intros Hline. destruct (vertical_line_inside g 0 c Hline) as (_ & Hup & _).
  unfold inside in Hup. lia.
Qed.

(** ** Offsets *)

Lemma cellToOffset_axes row col :
  cellToOffset row col = Vec2 (axis_offset col) (axis_offset row).
Proof. reflexivity. Qed.

(** The 80 offsets along an axis, computed: no two coincide, and all lie
    in the viewport. *)
Lemma axis_offsets_distinct : NoDup (axis_offset <$> seqZ 0 numberOfSeparators).
Proof. apply (bool_decide_unpack _). vm_compute. reflexivity. Qed.

Lemma axis_offsets_in_viewport :
  forallb (λ k, in_viewport (axis_offset k)) (seqZ 0 numberOfSeparators) = true.
Proof. vm_compute. reflexivity. Qed.

Lemma axis_offset_lookup k :
  inside k →
  (axis_offset <$> seqZ 0 numberOfSeparators) !! Z.to_nat k = Some (axis_offset k).
Proof.
  intros Hk. rewrite list_lookup_fmap, lookup_seqZ_lt by (unfold inside in *; lia).
  cbn. do 2 f_equal. unfold inside in *. lia.
Qed.

Lemma axis_offset_inj a b :
  inside a → inside b → axis_offset a = axis_offset b → a = b.
Proof.
  intros Ha Hb Heq.
  pose proof (axis_offset_lookup a Ha) as H1.
  pose proof (axis_offset_lookup b Hb) as H2. rewrite <- Heq in H2.
  pose proof (NoDup_lookup _ _ _ _ axis_offsets_distinct H1 H2).
  unfold inside in *. lia.
Qed.

Lemma axis_offset_in_viewport k : inside k → in_viewport (axis_offset k) = true.
Proof.
  intros Hk. pose proof axis_offsets_in_viewport as H.
  rewrite forallb_forall in H. apply H.
  apply list_elem_of_In, elem_of_seqZ. unfold inside in *. lia.
Qed.

Lemma offsets_NoDup g : NoDup ((λ p, cellToOffset p.1 p.2) <$> alive_cells g).
Proof.
  apply NoDup_fmap_2_strong; [|apply alive_cells_NoDup].
  intros [r c] [r' c'] Hp Hq. cbn [fst snd]. rewrite !cellToOffset_axes.
  intros [= Hx Hy].
  apply elem_of_alive_cells, isAlive_true_inside in Hp as [? ?].
  apply elem_of_alive_cells, isAlive_true_inside in Hq as [? ?].
  f_equal; by apply axis_offset_inj.
Qed.

(** ** The frame *)

Lemma frame_spec st :
  grid_wf (mapGrid st) →
  let g := if simulationRunning st then step (mapGrid st) else mapGrid st in
  frame st =
    Some (State g (simulationRunning st)
                ((λ p, cellToOffset p.1 p.2) <$> alive_cells g)).
Proof.
  intros Hwf. unfold frame. destruct st as [g running ts]. cbn in *.
  destruct running; cbn.
  - rewrite life_step_spec by done. cbn.
    by rewrite rebuild_translations_spec by apply step_wf.
  - by rewrite rebuild_translations_spec by done.
Qed.

(** * The claims *)

(** C1.  One step decides every cell [(i, j)] of the grid by the classic
    rule on its neighbour count: an alive cell with fewer than 2 or more
    than 3 alive neighbours is dead afterwards, a dead cell with exactly 3
    is alive afterwards, any other cell keeps its state.  The count the scan
    computes is the number of alive cells among the 8 offsets whose target
    lies inside the grid (no wrap-around), so it is between 0 and 8. *)
Theorem life_step_applies_rule g i j :
  grid_wf g → inside i → inside j →
  ∃ g', life_step g = Some g' ∧
    count_neighbours g i j = Some (neighbour_count g i j) ∧
    0 ≤ neighbour_count g i j ≤ 8 ∧
    (grid_read g i j = Some true →
     neighbour_count g i j < 2 ∨ 3 < neighbour_count g i j →
     grid_read g' i j = Some false) ∧
    (grid_read g i j = Some false → neighbour_count g i j = 3 →
     grid_read g' i j = Some true) ∧
    (¬ (grid_read g i j = Some true ∧
        (neighbour_count g i j < 2 ∨ 3 < neighbour_count g i j)) →
     ¬ (grid_read g i j = Some false ∧ neighbour_count g i j = 3) →
     grid_read g' i j = grid_read g i j).
Proof.
  intros Hwf Hi Hj. exists (step g).
  split; [by apply life_step_spec|].
  split; [by apply count_neighbours_spec|].
  split; [apply neighbour_count_range|].
  rewrite (isAlive_inside (step g)) by (done || apply step_wf).
  rewrite isAlive_step, (isAlive_inside g) by done.
  unfold life_rule. destruct (isAlive g i j); cbn [andb negb].
  - split; [|split].
    + intros _ Hn. by replace ((neighbour_count g i j <? 2)
        || (neighbour_count g i j >? 3)) with true by lia.
    + intros [=].
    + intros Hn _. replace ((neighbour_count g i j <? 2)
        || (neighbour_count g i j >? 3)) with false; [done|].
      destruct (decide (neighbour_count g i j < 2 ∨ 3 < neighbour_count g i j));
        [tauto|lia].
  - split; [|split].
    + intros [=].
    + intros _ ->. done.
    + intros _ Hn.
      replace (neighbour_count g i j =? 3) with false; [done|].
      destruct (decide (neighbour_count g i j = 3)); [tauto|lia].
Qed.

Lemma life_step_applies_rule_witness :
  grid_wf inner_line ∧ inside 4 ∧ inside 5 ∧
  ∃ g', life_step inner_line = Some g' ∧ neighbour_count inner_line 4 5 = 3 ∧
        grid_read inner_line 4 5 = Some false ∧ grid_read g' 4 5 = Some true.
Proof.
  assert (grid_wf inner_line) as Hwf by (apply grid_wfb_true; vm_compute; reflexivity).
  assert (inside 4) as Hi by (unfold inside, numberOfSeparators; lia).
  assert (inside 5) as Hj by (unfold inside, numberOfSeparators; lia).
  split; [exact Hwf|]. split; [exact Hi|]. split; [exact Hj|].
  destruct (life_step_applies_rule inner_line 4 5 Hwf Hi Hj)
    as (g' & Hstep & _ & _ & _ & Hbirth & _).
  exists g'. split; [exact Hstep|].
  split; [vm_compute; reflexivity|]. split; [vm_compute; reflexivity|].
  apply Hbirth; vm_compute; reflexivity.
Defined.

(** C3.  The imperative step (every cell of a fresh [newMapGrid] computed
    from the current [mapGrid], then copied over it) equals the pure step
    function on the prior generation: the scan ends with [mapGrid] as it
    began and [newMapGrid] holding the pure step of it, so no cell's update
    reaches another cell's count in the same step. *)
Theorem life_step_refines_step g :
  grid_wf g →
  rows update_cell (g, all_false) = Some (g, step g) ∧
  life_step g = Some (step g).
Proof.
  intros Hwf. split.
  - apply rows_update_cell; [done|apply all_false_wf].
  - by apply life_step_spec.
Qed.

Lemma life_step_refines_step_witness :
  grid_wf inner_line ∧
  rows update_cell (inner_line, all_false) = Some (inner_line, step inner_line) ∧
  life_step inner_line = Some (step inner_line).
Proof.
  assert (grid_wf inner_line) as Hwf by (apply grid_wfb_true; vm_compute; reflexivity).
  split; [exact Hwf|]. exact (life_step_refines_step inner_line Hwf).
Defined.

(** C10.  The step never indexes the grid out of bounds.  A read outside
    [0, N) in either index is [None] and would make the whole computation
    [None]; yet the neighbour scan returns a count for every centre cell,
    even one that is itself outside, and the step returns a grid. *)
Theorem scan_stays_in_bounds g :
  grid_wf g →
  (∀ r c, ¬ (inside r ∧ inside c) → grid_read g r c = None) ∧
  (∀ i j, is_Some (count_neighbours g i j)) ∧
  is_Some (life_step g).
Proof.
  intros Hwf. split; [|split].
  - intros r c. by apply grid_read_outside.
  - intros i j. rewrite count_neighbours_spec by done. by eexists.
  - rewrite life_step_spec by done. by eexists.
Qed.

Lemma scan_stays_in_bounds_witness :
  grid_wf inner_line ∧
  (∀ r c, ¬ (inside r ∧ inside c) → grid_read inner_line r c = None) ∧
  (∀ i j, is_Some (count_neighbours inner_line i j)) ∧
  is_Some (life_step inner_line).
Proof.
  assert (grid_wf inner_line) as Hwf by (apply grid_wfb_true; vm_compute; reflexivity).
  split; [exact Hwf|]. exact (scan_stays_in_bounds inner_line Hwf).
Defined.

(** C5, as amended.  A grid whose only alive cells form a horizontal line
    of three, with a row above and a row below the line inside the grid,
    becomes after one step the vertical line of three centred on the same
    middle cell, and after two steps the grid it was. *)
Theorem inner_line_oscillates g r c :
  horizontal_line g r c → inside (r - 1) → inside (r + 1) →
  blinker_oscillates g r c.
Proof.
  intros Hline Hup Hdown.
  destruct (horizontal_line_inside g r c Hline) as (_ & Hleft & Hright).
  pose proof (step_horizontal_line g r c Hline Hup Hdown) as Hv.
  pose proof (step_vertical_line (step g) r c Hv Hleft Hright) as Hh.
  exists (step g), (step (step g)). split; [apply life_step_spec, Hline|].
  split; [done|]. split; [apply life_step_spec, step_wf|].
  by eapply horizontal_line_unique.
Qed.

Lemma inner_line_oscillates_witness :
  horizontal_line inner_line 5 5 ∧ inside (5 - 1) ∧ inside (5 + 1) ∧
  blinker_oscillates inner_line 5 5.
Proof.
  assert (horizontal_line inner_line 5 5) as Hline
    by (apply horizontal_line_check; vm_compute; reflexivity).
  assert (inside (5 - 1)) as Hup by (unfold inside, numberOfSeparators; lia).
  assert (inside (5 + 1)) as Hdown by (unfold inside, numberOfSeparators; lia).
  split; [exact Hline|]. split; [exact Hup|]. split; [exact Hdown|].
  exact (inner_line_oscillates inner_line 5 5 Hline Hup Hdown).
Defined.

(** C5, as stated, fails on the boundary.  The line on columns 0 to 2 of
    row 0 has no row above it: one step leaves the two cells [(0, 1)] and
    [(1, 1)] alive, which is no line of three, and the second step leaves
    an empty grid. *)
Lemma edge_line_does_not_oscillate :
  horizontal_line edge_line 0 1 ∧
  alive_cells <$> life_step edge_line = Some [(0, 1); (1, 1)] ∧
  life_step edge_line ≫= life_step = Some all_false ∧
  ¬ blinker_oscillates edge_line 0 1.
Proof.
  split; [apply horizontal_line_check; vm_compute; reflexivity|].
  split; [vm_compute; reflexivity|]. split; [vm_compute; reflexivity|].
  intros (g1 & g2 & _ & Hv & _). by apply no_vertical_line_at_edge in Hv.
Qed.

(** C6.  One frame leaves in [translations] exactly the offsets of the
    cells alive in the grid it ends with (the stepped grid when running),
    each cell once and in row-major order; what [translations] held before,
    and the generation that was replaced, play no part. *)
Theorem frame_rebuilds_translations st :
  grid_wf (mapGrid st) →
  ∃ st', frame st = Some st' ∧
    mapGrid st' = (if simulationRunning st then step (mapGrid st)
                   else mapGrid st) ∧
    rebuild_translations (mapGrid st') (translations st)
      = Some (translations st') ∧
    translations st' = (λ p, cellToOffset p.1 p.2) <$> alive_cells (mapGrid st') ∧
    (∀ r c, (r, c) ∈ alive_cells (mapGrid st') ↔
            inside r ∧ inside c ∧ grid_read (mapGrid st') r c = Some true) ∧
    StronglySorted row_major_lt (alive_cells (mapGrid st')) ∧
    NoDup (alive_cells (mapGrid st')) ∧
    NoDup (translations st').
Proof.
  intros Hwf. eexists. split; [by apply frame_spec|]. cbn.
  set (g := if simulationRunning st then step (mapGrid st) else mapGrid st).
  assert (grid_wf g) as Hg by (subst g; destruct (simulationRunning st);
                               [apply step_wf|done]).
  split; [done|]. split; [by apply rebuild_translations_spec|].
  split; [done|]. split; [|split; [|split]].
  - intros r c. rewrite elem_of_alive_cells. split.
    + intros Halive. destruct (isAlive_true_inside g r c Halive) as [Hr Hc].
      repeat (split; [done|]). by rewrite isAlive_inside, Halive.
    + intros (Hr & Hc & Hread). rewrite isAlive_inside in Hread by done.
      congruence.
  - apply alive_cells_sorted.
  - apply alive_cells_NoDup.
  - apply offsets_NoDup.
Qed.

Lemma frame_rebuilds_translations_witness :
  grid_wf (mapGrid (State inner_line true [Vec2 viewPortTop viewPortTop])) ∧
  ∃ st', frame (State inner_line true [Vec2 viewPortTop viewPortTop]) = Some st' ∧
         mapGrid st' = step inner_line ∧
         translations st' =
           (λ p, cellToOffset p.1 p.2) <$> alive_cells (step inner_line).
Proof.
  assert (grid_wf (mapGrid (State inner_line true [Vec2 viewPortTop viewPortTop])))
    as Hwf by (apply grid_wfb_true; vm_compute; reflexivity).
  split; [exact Hwf|].
  destruct (frame_rebuilds_translations _ Hwf) as (st' & Hf & Hg & _ & Hts & _).
  exists st'. split; [exact Hf|]. split; [exact Hg|].
  rewrite Hts. f_equal. f_equal. exact Hg.
Defined.

(** C7.  While [simulationRunning] is set the mouse callback, in either
    program and for any button, action and cursor position, returns with
    the state, and so the grid, as it was. *)
Theorem running_ignores_clicks st button action xpos ypos :
  simulationRunning st = true →
  First.mouse_button_callback st button action xpos ypos = Some st ∧
  Second.mouse_button_callback st button action xpos ypos = Some st.
Proof.
  intros Hrun.
  unfold First.mouse_button_callback, Second.mouse_button_callback.
  by rewrite Hrun.
Qed.

Lemma running_ignores_clicks_witness :
  simulationRunning running_empty = true ∧
  First.mouse_button_callback running_empty GLFW_MOUSE_BUTTON_LEFT GLFW_PRESS
    (double_of_int 100) (double_of_int 0) = Some running_empty ∧
  Second.mouse_button_callback running_empty GLFW_MOUSE_BUTTON_LEFT GLFW_PRESS
    (double_of_int 100) (double_of_int 0) = Some running_empty.
Proof.
  split; [reflexivity|].
  apply (running_ignores_clicks running_empty); reflexivity.
Defined.

(** C8.  For a cell [(row, col)] of the grid that is alive, the rebuild
    loop appends the offset [x = viewPortLeft + cellSize * col],
    [y = viewPortBottom + cellSize * row], with
    [cellSize = viewPortSize / N]; the viewport runs from -1 to 1 on both
    axes, its size is 2, and the offset lies in it. *)
Theorem cell_offset_formula g ts row col :
  grid_wf g → inside row → inside col → grid_read g row col = Some true →
  add_if_alive g row col ts = Some (ts ++ [cellToOffset row col]) ∧
  vec2_x (cellToOffset row col) =
    float_add viewPortLeft (float_mul cellSize (float_of_int col)) ∧
  vec2_y (cellToOffset row col) =
    float_add viewPortBottom (float_mul cellSize (float_of_int row)) ∧
  cellSize = float_div viewPortSize (float_of_int numberOfSeparators) ∧
  gridSquareSize = cellSize ∧
  float_exact viewPortLeft (-1) = true ∧ float_exact viewPortRight 1 = true ∧
  float_exact viewPortBottom (-1) = true ∧ float_exact viewPortTop 1 = true ∧
  float_exact viewPortSize 2 = true ∧
  in_viewport (vec2_x (cellToOffset row col)) = true ∧
  in_viewport (vec2_y (cellToOffset row col)) = true.
Proof.
  intros Hwf Hr Hc Halive. split.
  - unfold add_if_alive. rewrite Halive. reflexivity.
  - do 4 (split; [reflexivity|]). do 5 (split; [vm_compute; reflexivity|]).
    rewrite cellToOffset_axes. cbn [vec2_x vec2_y].
    split; by apply axis_offset_in_viewport.
Qed.

Lemma cell_offset_formula_witness :
  grid_wf inner_line ∧ inside 5 ∧ inside 4 ∧
  grid_read inner_line 5 4 = Some true ∧
  add_if_alive inner_line 5 4 [] = Some [cellToOffset 5 4].
Proof.
  assert (grid_wf inner_line) as Hwf by (apply grid_wfb_true; vm_compute; reflexivity).
  assert (inside 5) as Hr by (unfold inside, numberOfSeparators; lia).
  assert (inside 4) as Hc by (unfold inside, numberOfSeparators; lia).
  assert (grid_read inner_line 5 4 = Some true) as Halive by (vm_compute; reflexivity).
  split; [exact Hwf|]. split; [exact Hr|]. split; [exact Hc|].
  split; [exact Halive|].
  exact (proj1 (cell_offset_formula inner_line [] 5 4 Hwf Hr Hc Halive)).
Defined.

(** C9.  For a cell [(row, col)] of the grid, the toggle statement flips
    the cell and no other, and a second toggle gives the first grid back;
    while paused, a left press whose position is cast to [(row, col)]
    performs exactly this toggle. *)
Theorem toggle_involution g row col :
  grid_wf g → inside row → inside col →
  ∃ g1, toggle g row col = Some g1 ∧
    isAlive g1 row col = negb (isAlive g row col) ∧
    (∀ r c, (r, c) ≠ (row, col) → isAlive g1 r c = isAlive g r c) ∧
    toggle g1 row col = Some g ∧
    ∀ st px py,
      mapGrid st = g → simulationRunning st = false →
      Second.cell_x px = Some col → Second.cell_y py = Some row →
      click st px py = Some (set_mapGrid g1 st) ∧
      click (set_mapGrid g1 st) px py = Some st.
Proof.
  intros Hwf Hr Hc.
  destruct (toggle_spec g row col Hwf Hr Hc)
    as (g1 & Hg1 & Hwf1 & Hflip & Hrest & Hback).
  exists g1. do 4 (split; [done|]).
  intros st px py Hg Hrun Hx Hy.
  assert (insideb row && insideb col = true) as Hin
    by (apply andb_true_iff; by rewrite !insideb_true).
  split.
  - rewrite (click_paused st px py col row), Hin, Hg, Hg1 by done. done.
  - rewrite (click_paused _ px py col row), Hin by done. cbn.
    rewrite Hback. cbn. f_equal. destruct st; cbn in *.
    unfold set_mapGrid. cbn. congruence.
Qed.

Lemma toggle_involution_witness :
  grid_wf all_false ∧ inside 0 ∧ inside 6 ∧
  ∃ g1, toggle all_false 0 6 = Some g1 ∧ isAlive g1 0 6 = true ∧
        toggle g1 0 6 = Some all_false ∧
        click paused_empty (double_of_int 100) (double_of_int 1199)
          = Some (set_mapGrid g1 paused_empty).
Proof.
  assert (grid_wf all_false) as Hwf by (apply grid_wfb_true; vm_compute; reflexivity).
  assert (inside 0) as Hr by (unfold inside, numberOfSeparators; lia).
  assert (inside 6) as Hc by (unfold inside, numberOfSeparators; lia).
  split; [exact Hwf|]. split; [exact Hr|]. split; [exact Hc|].
  assert (Second.cell_x (double_of_int 100) = Some 6) as Hx
    by (vm_compute; reflexivity).
  assert (Second.cell_y (double_of_int 1199) = Some 0) as Hy
    by (vm_compute; reflexivity).
  destruct (toggle_involution all_false 0 6 Hwf Hr Hc)
    as (g1 & Hg1 & Hflip & _ & Hback & Hclick).
  exists g1. split; [exact Hg1|]. split; [exact Hflip|]. split; [exact Hback|].
  exact (proj1 (Hclick paused_empty (double_of_int 100) (double_of_int 1199)
                  eq_refl eq_refl Hx Hy)).
Defined.

(** C2.  The first program has no test of the indices.  A left press on
    the top row of pixels, cursor at (100, 0), is cast to column 6 and row
    80, and the toggle then indexes [mapGrid[80][6]], outside the array;
    the second program, on the same input, returns with the state as it
    was. *)
Theorem first_callback_edge_click :
  First.cell_x (double_of_int 100) = Some 6 ∧
  First.cell_y (double_of_int 0) = Some 80 ∧
  First.mouse_button_callback paused_empty GLFW_MOUSE_BUTTON_LEFT GLFW_PRESS
    (double_of_int 100) (double_of_int 0) = None ∧
  Second.mouse_button_callback paused_empty GLFW_MOUSE_BUTTON_LEFT GLFW_PRESS
    (double_of_int 100) (double_of_int 0) = Some paused_empty.
Proof. repeat split; vm_compute; reflexivity. Qed.

(** C4, as amended.  For a cursor position whose scaled coordinates, once
    rounded toward zero, fit an [int], both programs compute
    [col = trunc((px / windowWidth) * N)] and
    [row = trunc(((windowHeight - py) / windowHeight) * N)], with the window
    size 1200 by 1200; the rounding is that of the cast and agrees with
    [floor] whenever the floor is not negative.  While paused, the second
    program toggles the cell [(row, col)] when it lies in the grid, and
    otherwise returns with the state as it was. *)
Theorem device_to_cell_truncates st px py col row :
  simulationRunning st = false → grid_wf (mapGrid st) →
  double_trunc (scale_x px) = Some col → double_trunc (scale_y py) = Some row →
  INT_MIN ≤ col ≤ INT_MAX → INT_MIN ≤ row ≤ INT_MAX →
  Second.cell_x px = Some col ∧ Second.cell_y py = Some row ∧
  First.cell_x px = Some col ∧ First.cell_y py = Some row ∧
  (∀ f, double_floor (scale_x px) = Some f → 0 ≤ f → col = f) ∧
  (∀ f, double_floor (scale_y py) = Some f → 0 ≤ f → row = f) ∧
  (inside row ∧ inside col →
     deviceToCell px py = Some (row, col) ∧
     ∃ g, toggle (mapGrid st) row col = Some g ∧ g ≠ mapGrid st ∧
          click st px py = Some (set_mapGrid g st)) ∧
  (¬ (inside row ∧ inside col) →
     deviceToCell px py = None ∧ click st px py = Some st).
Proof.
  intros Hrun Hwf Hcol Hrow Hcfit Hrfit.
  assert (Second.cell_x px = Some col) as Hx by (by apply double_trunc_to_int).
  assert (Second.cell_y py = Some row) as Hy by (by apply double_trunc_to_int).
  do 4 (split; [done|]).
  split; [intros f Hf; by eapply double_trunc_floor|].
  split; [intros f Hf; by eapply double_trunc_floor|].
  unfold deviceToCell. rewrite Hcol, Hrow. cbn [mbind option_bind].
  rewrite (click_paused st px py col row) by done. split.
  - intros [Hr Hc]. rewrite (proj2 (insideb_true row)), (proj2 (insideb_true col))
      by done. cbn [andb]. split; [done|].
    destruct (toggle_spec (mapGrid st) row col Hwf Hr Hc)
      as (g & Hg & _ & Hflip & _).
    exists g. rewrite Hg. split; [done|]. split; [|done].
    intros ->. by destruct (isAlive (mapGrid st) row col).
  - intros Hout. destruct (insideb row && insideb col) eqn:Hin; [|done].
    apply andb_true_iff in Hin as [Hr Hc]. rewrite insideb_true in Hr, Hc.
    tauto.
Qed.

Lemma device_to_cell_truncates_witness :
  simulationRunning paused_empty = false ∧ grid_wf (mapGrid paused_empty) ∧
  double_trunc (scale_x (double_of_int 100)) = Some 6 ∧
  double_trunc (scale_y (double_of_int 1210)) = Some 0 ∧
  INT_MIN ≤ 6 ≤ INT_MAX ∧ INT_MIN ≤ 0 ≤ INT_MAX ∧
  Second.cell_x (double_of_int 100) = Some 6 ∧
  Second.cell_y (double_of_int 1210) = Some 0 ∧
  deviceToCell (double_of_int 100) (double_of_int 1210) = Some (0, 6).
Proof.
  assert (grid_wf (mapGrid paused_empty)) as Hwf
    by (apply grid_wfb_true; vm_compute; reflexivity).
  assert (double_trunc (scale_x (double_of_int 100)) = Some 6) as Hcol
    by (vm_compute; reflexivity).
  assert (double_trunc (scale_y (double_of_int 1210)) = Some 0) as Hrow
    by (vm_compute; reflexivity).
  assert (INT_MIN ≤ 6 ≤ INT_MAX) as Hcfit by (unfold INT_MIN, INT_MAX; lia).
  assert (INT_MIN ≤ 0 ≤ INT_MAX) as Hrfit by (unfold INT_MIN, INT_MAX; lia).
  split; [reflexivity|]. do 5 (split; [assumption|]).
  destruct (device_to_cell_truncates paused_empty _ _ 6 0 eq_refl Hwf Hcol Hrow
              Hcfit Hrfit) as (Hx & Hy & _ & _ & _ & _ & Hin & _).
  split; [exact Hx|]. split; [exact Hy|].
  apply Hin. unfold inside, numberOfSeparators. lia.
Defined.

(** C4, as stated, fails below the window's lower edge.  At the cursor
    position (100, 1210) the scaled row is -2/3: its floor is -1, outside
    the grid, so the mapping with [floor] yields no cell; the cast rounds it
    to 0, and the second program toggles the cell [(0, 6)]. *)
Lemma floor_mapping_counterexample :
  double_floor (scale_y (double_of_int 1210)) = Some (-1) ∧
  deviceToCell_floor (double_of_int 100) (double_of_int 1210) = None ∧
  Second.cell_y (double_of_int 1210) = Some 0 ∧
  grid_read (mapGrid paused_empty) 0 6 = Some false ∧
  (click paused_empty (double_of_int 100) (double_of_int 1210)
     ≫= λ st, grid_read (mapGrid st) 0 6) = Some true.
Proof. repeat split; vm_compute; reflexivity. Qed.

(** * Further properties *)

(** ** Keys and clicks *)

Lemma key_callback_cases st shouldClose key scancode action mods :
  mapGrid (key_callback st shouldClose key scancode action mods).1 = mapGrid st ∧
  translations (key_callback st shouldClose key scancode action mods).1
    = translations st ∧
  (simulationRunning (key_callback st shouldClose key scancode action mods).1
     = negb (simulationRunning st)
   ↔ key = GLFW_KEY_SPACE ∧ action = GLFW_PRESS) ∧
  ((key_callback st shouldClose key scancode action mods).2 = true
   ↔ shouldClose = true ∨ (key = GLFW_KEY_ESCAPE ∧ action = GLFW_PRESS)).
Proof.
  unfold key_callback, GLFW_KEY_ESCAPE, GLFW_KEY_SPACE, GLFW_PRESS.
  destruct (Z.eqb_spec key 256), (Z.eqb_spec action 1), (Z.eqb_spec key 32);
    cbn [andb fst snd]; try lia;
    (split; [done|]); (split; [done|]); split;
    cbn [simulationRunning]; split; intros H;
    first [ tauto | lia | by destruct (simulationRunning st) ].
Qed.

(** X1.  The key callback never changes the grid or the translations and
    never withdraws a request to close; it flips the mode exactly on a press
    of SPACE, and it requests closing exactly on a press of ESCAPE. *)
Theorem key_callback_effects st shouldClose key scancode action mods :
  mapGrid (key_callback st shouldClose key scancode action mods).1 = mapGrid st ∧
  translations (key_callback st shouldClose key scancode action mods).1
    = translations st ∧
  (simulationRunning (key_callback st shouldClose key scancode action mods).1
     = negb (simulationRunning st)
   ↔ key = GLFW_KEY_SPACE ∧ action = GLFW_PRESS) ∧
  ((key_callback st shouldClose key scancode action mods).2 = true
   ↔ shouldClose = true ∨ (key = GLFW_KEY_ESCAPE ∧ action = GLFW_PRESS)).
Proof. exact (key_callback_cases st shouldClose key scancode action mods). Qed.

(** X2.  From a paused state, a press of SPACE starts the run, the mouse
    callback of either program then ignores every event, and a second press
    of SPACE gives back the very state the first press found. *)
Theorem space_gates_editing st shouldClose scancode mods button action xpos ypos :
  simulationRunning st = false →
  ∃ st1,
    key_callback st shouldClose GLFW_KEY_SPACE scancode GLFW_PRESS mods
      = (st1, shouldClose) ∧
    First.mouse_button_callback st1 button action xpos ypos = Some st1 ∧
    Second.mouse_button_callback st1 button action xpos ypos = Some st1 ∧
    key_callback st1 shouldClose GLFW_KEY_SPACE scancode GLFW_PRESS mods
      = (st, shouldClose).
Proof.
  intros Hrun. destruct st as [g running ts]. cbn in Hrun. subst running.
  exists (State g true ts). repeat split.
Qed.

Lemma space_gates_editing_witness :
  simulationRunning paused_empty = false ∧
  ∃ st1,
    key_callback paused_empty false GLFW_KEY_SPACE 0 GLFW_PRESS 0 = (st1, false) ∧
    Second.mouse_button_callback st1 GLFW_MOUSE_BUTTON_LEFT GLFW_PRESS
      (double_of_int 100) (double_of_int 600) = Some st1 ∧
    key_callback st1 false GLFW_KEY_SPACE 0 GLFW_PRESS 0 = (paused_empty, false).
Proof.
  split; [reflexivity|].
  destruct (space_gates_editing paused_empty false 0 0 GLFW_MOUSE_BUTTON_LEFT
              GLFW_PRESS (double_of_int 100) (double_of_int 600) eq_refl)
    as (st1 & H1 & _ & H2 & H3).
  exists st1. split; [exact H1|]. split; [exact H2|exact H3].
Defined.

Lemma mouse_callbacks_coincide st button action xpos ypos :
  (∀ x y, First.cell_x xpos = Some x → First.cell_y ypos = Some y →
          inside y ∧ inside x) →
  First.mouse_button_callback st button action xpos ypos
    = Second.mouse_button_callback st button action xpos ypos.
Proof.
  intros Hin. unfold First.mouse_button_callback, Second.mouse_button_callback.
  destruct (simulationRunning st); [done|].
  destruct ((button =? GLFW_MOUSE_BUTTON_LEFT) && (action =? GLFW_PRESS)); [|done].
  change (Second.cell_x xpos) with (First.cell_x xpos).
  change (Second.cell_y ypos) with (First.cell_y ypos).
  destruct (First.cell_x xpos) as [x|]; [|done].
  destruct (First.cell_y ypos) as [y|]; [|done]. cbn [mbind option_bind].
  destruct (Hin x y eq_refl eq_refl) as [Hy Hx].
  rewrite second_guard, (proj2 (insideb_true y)), (proj2 (insideb_true x)) by done.
  done.
Qed.

(** X3.  The two mouse callbacks return the same result on every event
    whose position, when the casts accept it, is cast to a cell of the
    grid: they part only where the first one leaves the array. *)
Theorem callbacks_agree_inside st button action xpos ypos :
  (∀ x y, First.cell_x xpos = Some x → First.cell_y ypos = Some y →
          inside y ∧ inside x) →
  First.mouse_button_callback st button action xpos ypos
    = Second.mouse_button_callback st button action xpos ypos.
Proof. exact (mouse_callbacks_coincide st button action xpos ypos). Qed.

Lemma callbacks_agree_inside_witness :
  (∀ x y, First.cell_x (double_of_int 100) = Some x →
          First.cell_y (double_of_int 1199) = Some y → inside y ∧ inside x) ∧
  First.mouse_button_callback paused_empty GLFW_MOUSE_BUTTON_LEFT GLFW_PRESS
    (double_of_int 100) (double_of_int 1199)
  = Second.mouse_button_callback paused_empty GLFW_MOUSE_BUTTON_LEFT GLFW_PRESS
      (double_of_int 100) (double_of_int 1199).
Proof.
  assert (∀ x y, First.cell_x (double_of_int 100) = Some x →
                 First.cell_y (double_of_int 1199) = Some y → inside y ∧ inside x)
    as Hin.
  { intros x y Hx Hy. vm_compute in Hx, Hy.
    injection Hx as <-. injection Hy as <-.
    unfold inside, numberOfSeparators. lia. }
  split; [exact Hin|]. exact (callbacks_agree_inside _ _ _ _ _ Hin).
Defined.

Lemma click_pixel st px py :
  simulationRunning st = false → grid_wf (mapGrid st) →
  0 ≤ px < windowWidth → 0 ≤ py ≤ windowHeight →
  if py =? 0 then click st (double_of_int px) (double_of_int py) = Some st
  else
    inside ((windowHeight - py) / 15) ∧ inside (px / 15) ∧
    ∃ g, toggle (mapGrid st) ((windowHeight - py) / 15) (px / 15) = Some g ∧
         click st (double_of_int px) (double_of_int py) = Some (set_mapGrid g st).
Proof.
  intros Hrun Hwf Hpx Hpy.
  pose proof (cell_x_on_pixels px Hpx) as Hx.
  pose proof (cell_y_on_pixels py Hpy) as Hy.
  unfold windowWidth, windowHeight, numberOfSeparators in *.
  change 1200 with (15 * 80) in Hx at 1. change 1200 with (15 * 80) in Hy at 2.
  rewrite Z.div_mul_cancel_r in Hx, Hy by done.
  rewrite (click_paused st _ _ _ _ Hrun Hx Hy).
  destruct (Z.eqb_spec py 0) as [->|Hne].
  - by replace (insideb ((1200 - 0) / 15)) with false by (by vm_compute).
  - assert (inside ((1200 - py) / 15)) as Hr
      by (unfold inside, numberOfSeparators; Z.div_mod_to_equations; lia).
    assert (inside (px / 15)) as Hc
      by (unfold inside, numberOfSeparators; Z.div_mod_to_equations; lia).
    split; [done|]. split; [done|].
    rewrite (proj2 (insideb_true _) Hr), (proj2 (insideb_true _) Hc). cbn [andb].
    destruct (toggle_spec (mapGrid st) _ _ Hwf Hr Hc) as (g & Hg & _).
    exists g. by rewrite Hg.
Qed.

(** X4.  While paused, a left press on a whole pixel [(px, py)] of the
    1200 by 1200 window does nothing on the top row of pixels ([py = 0],
    which is cast to row 80), and everywhere else toggles the cell in
    column [px / 15] and row [(1200 - py) / 15], a cell of the grid. *)
Theorem click_on_whole_pixel st px py :
  simulationRunning st = false → grid_wf (mapGrid st) →
  0 ≤ px < windowWidth → 0 ≤ py ≤ windowHeight →
  if py =? 0 then click st (double_of_int px) (double_of_int py) = Some st
  else
    inside ((windowHeight - py) / 15) ∧ inside (px / 15) ∧
    ∃ g, toggle (mapGrid st) ((windowHeight - py) / 15) (px / 15) = Some g ∧
         click st (double_of_int px) (double_of_int py) = Some (set_mapGrid g st).
Proof. exact (click_pixel st px py). Qed.

Lemma click_on_whole_pixel_witness :
  simulationRunning paused_empty = false ∧ grid_wf (mapGrid paused_empty) ∧
  0 ≤ 100 < windowWidth ∧ 0 ≤ 0 ≤ windowHeight ∧
  click paused_empty (double_of_int 100) (double_of_int 0) = Some paused_empty.
Proof.
  assert (grid_wf (mapGrid paused_empty)) as Hwf
    by (apply grid_wfb_true; vm_compute; reflexivity).
  assert (0 ≤ 100 < windowWidth) as Hpx by (unfold windowWidth; lia).
  assert (0 ≤ 0 ≤ windowHeight) as Hpy by (unfold windowHeight; lia).
  split; [reflexivity|]. split; [exact Hwf|]. split; [exact Hpx|].
  split; [exact Hpy|].
  exact (click_on_whole_pixel paused_empty 100 0 eq_refl Hwf Hpx Hpy).
Defined.

(** ** From a click to the squares *)

Lemma cellToOffset_inj r c r' c' :
  inside r → inside c → inside r' → inside c' →
  cellToOffset r c = cellToOffset r' c' → (r, c) = (r', c').
Proof.
  intros Hr Hc Hr' Hc'. rewrite !cellToOffset_axes. intros [= Hx Hy].
  f_equal; by apply axis_offset_inj.
Qed.

(** The offset of a cell of the grid is listed exactly when the cell is
    alive. *)
Lemma offset_listed g r c :
  inside r → inside c →
  cellToOffset r c ∈ ((λ p, cellToOffset p.1 p.2) <$> alive_cells g)
  ↔ isAlive g r c = true.
Proof.
  intros Hr Hc. rewrite list_elem_of_fmap. split.
  - intros ([r' c'] & Heq & Hin). cbn [fst snd] in Heq.
    pose proof Hin as Halive. apply elem_of_alive_cells in Halive.
    destruct (isAlive_true_inside g r' c' Halive) as [Hr' Hc'].
    apply cellToOffset_inj in Heq as [= -> ->]; done.
  - intros Halive. exists (r, c). split; [done|]. by apply elem_of_alive_cells.
Qed.

(** X5.  Every cell of the grid can be reached with the mouse, and the
    next frame shows the edit: while paused, a left press on the pixel
    [(15 c + 7, 1192 - 15 r)] followed by a frame leaves the offset of
    [(r, c)] among the translations exactly when the cell was dead before,
    and every other cell listed exactly when it was alive before. *)
Theorem click_then_frame st r c :
  simulationRunning st = false → grid_wf (mapGrid st) → inside r → inside c →
  ∃ st1 st2,
    click st (double_of_int (15 * c + 7)) (double_of_int (1192 - 15 * r))
      = Some st1 ∧
    frame st1 = Some st2 ∧
    (cellToOffset r c ∈ translations st2 ↔ isAlive (mapGrid st) r c = false) ∧
    ∀ r' c', inside r' → inside c' → (r', c') ≠ (r, c) →
      (cellToOffset r' c' ∈ translations st2
       ↔ isAlive (mapGrid st) r' c' = true).
Proof.
  intros Hrun Hwf Hr Hc.
  assert (0 ≤ 15 * c + 7 < windowWidth) as Hpx
    by (unfold inside, numberOfSeparators, windowWidth in *; lia).
  assert (0 ≤ 1192 - 15 * r ≤ windowHeight) as Hpy
    by (unfold inside, numberOfSeparators, windowHeight in *; lia).
  pose proof (click_pixel st _ _ Hrun Hwf Hpx Hpy) as Hclick.
  replace (1192 - 15 * r =? 0) with false in Hclick
    by (unfold inside, numberOfSeparators in *; lia).
  replace ((windowHeight - (1192 - 15 * r)) / 15) with r in Hclick
    by (unfold windowHeight; Z.div_mod_to_equations; lia).
  replace ((15 * c + 7) / 15) with c in Hclick
    by (Z.div_mod_to_equations; lia).
  destruct Hclick as (_ & _ & g & Hg & Hclick).
  destruct (toggle_spec (mapGrid st) r c Hwf Hr Hc)
    as (g' & Hg' & Hwf' & Hflip & Hrest & _).
  rewrite Hg in Hg'. injection Hg' as <-.
  exists (set_mapGrid g st). eexists. split; [done|].
  split; [apply frame_spec; done|].
  cbn [translations set_mapGrid simulationRunning mapGrid]. rewrite Hrun.
  split.
  - rewrite offset_listed, Hflip by done. by destruct (isAlive (mapGrid st) r c).
  - intros r' c' Hr' Hc' Hne. by rewrite offset_listed, Hrest.
Qed.

Lemma click_then_frame_witness :
  simulationRunning paused_empty = false ∧ grid_wf (mapGrid paused_empty) ∧
  inside 79 ∧ inside 0 ∧
  ∃ st1 st2,
    click paused_empty (double_of_int (15 * 0 + 7)) (double_of_int (1192 - 15 * 79))
      = Some st1 ∧
    frame st1 = Some st2 ∧ cellToOffset 79 0 ∈ translations st2.
Proof.
  assert (grid_wf (mapGrid paused_empty)) as Hwf
    by (apply grid_wfb_true; vm_compute; reflexivity).
  assert (inside 79) as Hr by (unfold inside, numberOfSeparators; lia).
  assert (inside 0) as Hc by (unfold inside, numberOfSeparators; lia).
  split; [reflexivity|]. split; [exact Hwf|]. split; [exact Hr|].
  split; [exact Hc|].
  destruct (click_then_frame paused_empty 79 0 eq_refl Hwf Hr Hc)
    as (st1 & st2 & H1 & H2 & H3 & _).
  exists st1, st2. split; [exact H1|]. split; [exact H2|].
  apply H3. vm_compute. reflexivity.
Defined.

(** ** The separator lines *)

Lemma foldl_push_separator acc l :
  foldl Grid.push_separator acc l =
    acc ++ (l ≫= λ i, [axis_offset i; viewPortTop; float_of_int 0;
                       axis_offset i; viewPortBottom; float_of_int 0;
                       viewPortRight; axis_offset i; float_of_int 0;
                       viewPortLeft; axis_offset i; float_of_int 0]).
Proof.
  revert acc. induction l as [|i l IH]; intros acc; cbn [foldl].
  - by rewrite app_nil_r.
  - rewrite IH. unfold Grid.push_separator. cbn [mbind list_bind].
    rewrite <- app_assoc. reflexivity.
Qed.

Lemma bind_const_length {A B} (f : A → list B) (n : nat) (l : list A) :
  (∀ a, length (f a) = n) → length (l ≫= f) = (length l * n)%nat.
Proof.
  intros Hf. induction l as [|a l IH]; [done|].
  cbn [mbind list_bind length]. rewrite length_app, Hf.
  change (foldr _ _ _) with (l ≫= f). rewrite IH. lia.
Qed.

Lemma bind_const_lookup {A B} (f : A → list B) (n : nat) (l : list A) i k a :
  (∀ a, length (f a) = n) → l !! i = Some a → (k < n)%nat →
  (l ≫= f) !! (i * n + k)%nat = f a !! k.
Proof.
  intros Hf. revert i. induction l as [|b l IH]; intros i Hi Hk; [done|].
  cbn [mbind list_bind]. change (foldr _ _ _) with (l ≫= f).
  destruct i as [|i]; cbn in Hi.
  - injection Hi as ->. rewrite lookup_app_l by (rewrite Hf; lia). done.
  - rewrite lookup_app_r by (rewrite Hf; lia). rewrite Hf.
    replace (Datatypes.S i * n + k - n)%nat with (i * n + k)%nat by lia.
    by apply IH.
Qed.

(** X6.  The constructor of the grid leaves 12 floats per separator, 960 in
    all, which [draw] passes on as 320 vertices.  Separator [k] is the
    upright line from [(x, 1)] to [(x, -1)] and the level line from
    [(1, x)] to [(-1, x)], where [x] is, bit for bit, the offset at which
    the squares of column [k] and of row [k] are drawn; [x] lies in
    [[-1, 1)], so no line is on the right or the upper border. *)
Theorem separators_align_with_cells k :
  inside k →
  length Grid.vertices = 960%nat ∧
  (∀ vao loc, glDrawArrays 0 320 ∈ Grid.draw vao loc) ∧
  take 12 (drop (12 * Z.to_nat k) Grid.vertices) =
    [axis_offset k; viewPortTop; float_of_int 0;
     axis_offset k; viewPortBottom; float_of_int 0;
     viewPortRight; axis_offset k; float_of_int 0;
     viewPortLeft; axis_offset k; float_of_int 0] ∧
  (∀ row, vec2_x (cellToOffset row k) = axis_offset k) ∧
  (∀ col, vec2_y (cellToOffset k col) = axis_offset k) ∧
  in_viewport (axis_offset k) = true.
Proof.
  intros Hk.
  assert (length Grid.vertices = 960%nat) as Hlen.
  { unfold Grid.vertices. rewrite foldl_push_separator, app_nil_l.
    rewrite (bind_const_length _ 12) by done. by rewrite length_seqZ. }
  split; [done|]. split.
  { intros vao loc. unfold Grid.draw. rewrite Hlen.
    change (Z.of_nat (960 / 3)) with 320.
    apply list_elem_of_lookup. by exists 2%nat. }
  split; [|split; [done|split; [done|by apply axis_offset_in_viewport]]].
  apply list_eq. intros i.
  destruct (decide (i < 12)%nat) as [Hi|Hi].
  - rewrite lookup_take_lt, lookup_drop by done.
    unfold Grid.vertices. rewrite foldl_push_separator, app_nil_l.
    replace (12 * Z.to_nat k + i)%nat with (Z.to_nat k * 12 + i)%nat by lia.
    rewrite (bind_const_lookup _ 12 _ _ _ k); [done|done| |done].
    rewrite lookup_seqZ_lt by (unfold inside in *; lia).
    f_equal. unfold inside in *. lia.
  - rewrite lookup_take_ge by lia. symmetry. apply lookup_ge_None. cbn. lia.
Qed.

Lemma separators_align_with_cells_witness :
  inside 79 ∧ length Grid.vertices = 960%nat ∧
  in_viewport (axis_offset 79) = true ∧
  (∀ row, vec2_x (cellToOffset row 79) = axis_offset 79).
Proof.
  assert (inside 79) as Hk by (unfold inside, numberOfSeparators; lia).
  split; [exact Hk|].
  destruct (separators_align_with_cells 79 Hk) as (H1 & _ & _ & H4 & _ & H6).
  split; [exact H1|]. split; [exact H6|exact H4].
Defined.

(** ** Drawing the squares *)

Lemma squares_draw_loop ts loc calls :
  for_loop (length ts) 0 (Squares.draw_one ts loc) calls =
    Some (calls ++ (ts ≫= λ t, [glUniform2f loc (vec2_x t) (vec2_y t);
                                glDrawElements 6])).
Proof.
  destruct (for_loop_inv
    (λ k cs, cs = calls ++ (take (Z.to_nat k) ts ≫=
                  λ t, [glUniform2f loc (vec2_x t) (vec2_y t); glDrawElements 6]))
    (Squares.draw_one ts loc) (length ts) 0 calls) as (cs & Hcs & ->).
  - cbn. by rewrite app_nil_r.
  - intros k cs Hk ->. unfold Squares.draw_one.
    replace (k <? 0) with false by lia.
    destruct (lookup_lt_is_Some_2 ts (Z.to_nat k)) as [t Ht]; [lia|].
    rewrite Ht. cbn [mbind option_bind]. eexists. split; [done|].
    replace (Z.to_nat (k + 1)) with (Datatypes.S (Z.to_nat k)) by lia.
    rewrite (take_S_r _ _ t) by done. rewrite bind_app. cbn [mbind list_bind].
    by rewrite app_nil_r, app_assoc.
  - rewrite Hcs. do 3 f_equal.
    replace (Z.to_nat (0 + Z.of_nat (length ts))) with (length ts) by lia.
    by rewrite firstn_all.
Qed.

Lemma squares_draw_spec h ts :
  Squares.draw ts (squareVao h) (translationLocation h)
    = Some (square_calls h ts) ∧
  (ts = [] → square_calls h ts = []) ∧
  length (square_calls h ts)
    = (if decide (ts = []) then 0 else 2 * length ts + 2)%nat.
Proof.
  split; [|split].
  - unfold Squares.draw. destruct (decide (ts = [])) as [->|Hne]; [done|].
    replace (length ts =? 0)%nat with false by (by destruct ts).
    rewrite squares_draw_loop. by destruct ts.
  - by intros ->.
  - destruct ts as [|t ts]; [done|]. rewrite decide_False by done.
    unfold square_calls. rewrite !length_app.
    rewrite (bind_const_length _ 2) by done. cbn [length]. lia.
Qed.

(** X7.  [Squares::draw] never reads past the end of [translations]: it
    makes no call at all when the list is empty, and otherwise binds the
    vertex array, sets the translation and draws the 6 indices once per
    entry, in the order of the list, and unbinds. *)
Theorem squares_draw_calls h ts :
  Squares.draw ts (squareVao h) (translationLocation h)
    = Some (square_calls h ts) ∧
  (ts = [] → square_calls h ts = []) ∧
  length (square_calls h ts)
    = (if decide (ts = []) then 0 else 2 * length ts + 2)%nat.
Proof. exact (squares_draw_spec h ts). Qed.

Lemma draw_all_spec h st :
  draw_all h st =
    Some (Grid.draw (gridVao h) (translationLocation h)
          ++ square_calls h (translations st)).
Proof.
  unfold draw_all, drawables. cbn [length for_loop].
  unfold draw_drawable at 1. cbn. unfold draw_drawable. cbn.
  rewrite (proj1 (squares_draw_spec h _)). done.
Qed.

(** ** The main loop *)

Lemma second_callback_safe st button action xpos ypos :
  grid_wf (mapGrid st) →
  is_Some (Second.cell_x xpos) → is_Some (Second.cell_y ypos) →
  ∃ st', Second.mouse_button_callback st button action xpos ypos = Some st' ∧
         grid_wf (mapGrid st').
Proof.
  intros Hwf [x Hx] [y Hy]. unfold Second.mouse_button_callback.
  destruct (simulationRunning st); [by exists st|].
  destruct ((button =? GLFW_MOUSE_BUTTON_LEFT) && (action =? GLFW_PRESS));
    [|by exists st].
  rewrite Hx, Hy. cbn [mbind option_bind]. rewrite second_guard.
  destruct (insideb y && insideb x) eqn:Hin; cbn [negb]; [|by exists st].
  apply andb_true_iff in Hin as [Hiy Hix]. rewrite insideb_true in Hiy, Hix.
  destruct (toggle_spec (mapGrid st) y x Hwf Hiy Hix) as (g & Hg & Hwfg & _).
  rewrite Hg. cbn [mbind option_bind]. by exists (set_mapGrid g st).
Qed.

Lemma poll_second events st shouldClose calls :
  grid_wf (mapGrid st) → Forall castable events →
  ∃ st' shouldClose',
    glfwPollEvents Second.mouse_button_callback events (st, shouldClose, calls)
      = Some (st', shouldClose', calls ++ viewport_calls events) ∧
    grid_wf (mapGrid st').
Proof.
  intros Hwf Hev. revert st shouldClose calls Hwf.
  induction Hev as [|e events He _ IH]; intros st shouldClose calls Hwf.
  - exists st, shouldClose. cbn. by rewrite app_nil_r.
  - cbn [glfwPollEvents]. destruct e as [key sc action mods|b a m xp yp|w ht].
    + cbn [dispatch].
      pose proof (key_callback_cases st shouldClose key sc action mods)
        as (Hgrid & _).
      destruct (key_callback st shouldClose key sc action mods) as [st1 cl1].
      cbn [mbind option_bind fst] in *.
      destruct (IH st1 cl1 calls) as (st' & cl' & Hrun & Hwf');
        [by rewrite Hgrid|].
      exists st', cl'. by rewrite Hrun.
    + destruct He as [Hx Hy].
      destruct (second_callback_safe st b a xp yp Hwf Hx Hy) as (st1 & Hcb & Hwf1).
      cbn [dispatch]. rewrite Hcb. cbn [mbind option_bind].
      destruct (IH st1 shouldClose calls Hwf1) as (st' & cl' & Hrun & Hwf').
      exists st', cl'. by rewrite Hrun.
    + cbn [dispatch mbind option_bind].
      destruct (IH st shouldClose (calls ++ framebuffer_size_callback w ht) Hwf)
        as (st' & cl' & Hrun & Hwf').
      exists st', cl'. rewrite Hrun. split; [|done].
      unfold viewport_calls. cbn [mbind list_bind]. by rewrite app_assoc.
Qed.

Lemma loop_body_due h now events l :
  grid_wf (mapGrid (program l)) → frame_due now l = true →
  Forall castable events →
  ∃ l', loop_body Second.mouse_button_callback h now events l
          = Some (l', frame_calls h
                        (if simulationRunning (program l)
                         then step (mapGrid (program l))
                         else mapGrid (program l))
                      ++ viewport_calls events) ∧
        lastFrameTime l' = now ∧ lastUpdateTime l' = now ∧
        grid_wf (mapGrid (program l')) ∧
        (events = [] →
         mapGrid (program l') = (if simulationRunning (program l)
                                 then step (mapGrid (program l))
                                 else mapGrid (program l))).
Proof.
  intros Hwf Hdue Hev. unfold loop_body. rewrite Hdue.
  rewrite frame_spec by done. cbn zeta. cbn [mbind option_bind].
  set (g := if simulationRunning (program l) then step (mapGrid (program l))
            else mapGrid (program l)).
  assert (grid_wf g) as Hg
    by (subst g; destruct (simulationRunning (program l)); [apply step_wf|done]).
  rewrite draw_all_spec. cbn [mbind option_bind translations].
  destruct (poll_second events
              (State g (simulationRunning (program l))
                     ((λ p, cellToOffset p.1 p.2) <$> alive_cells g))
              (windowShouldClose l)
              ([glClear; glUseProgram (shaderProgram h)]
               ++ (Grid.draw (gridVao h) (translationLocation h)
                   ++ square_calls h ((λ p, cellToOffset p.1 p.2) <$> alive_cells g))
               ++ [glfwSwapBuffers]) Hg Hev)
    as (st' & cl' & Hpoll & Hwf').
  rewrite Hpoll. cbn [mbind option_bind]. eexists. split.
  - f_equal; f_equal; unfold frame_calls; by rewrite <- ?app_assoc.
  - cbn. repeat (split; [done|]). intros ->. cbn in Hpoll. by injection Hpoll as <- _.
Qed.

(** X8.  A pass of the loop that is due shows the grid as it is when the
    pass draws: the calls are the clear, the program, the separator lines,
    one square for each cell alive after the step (when running; else in
    the grid as it stood), the buffer swap, and then whatever the resize
    events ask for; events are handled only after drawing.  The pass
    records its time, and the grid keeps its shape. *)
Theorem due_pass_draws_alive_cells h now events l :
  grid_wf (mapGrid (program l)) → frame_due now l = true →
  Forall castable events →
  ∃ l', loop_body Second.mouse_button_callback h now events l
          = Some (l', frame_calls h
                        (if simulationRunning (program l)
                         then step (mapGrid (program l))
                         else mapGrid (program l))
                      ++ viewport_calls events) ∧
        lastFrameTime l' = now ∧ lastUpdateTime l' = now ∧
        grid_wf (mapGrid (program l')) ∧
        (events = [] →
         mapGrid (program l') = (if simulationRunning (program l)
                                 then step (mapGrid (program l))
                                 else mapGrid (program l))).
Proof. exact (loop_body_due h now events l). Qed.

Lemma due_pass_draws_alive_cells_witness :
  grid_wf (mapGrid (program (LoopState (State inner_line true []) false
                               (double_of_int 0) (double_of_int 0)))) ∧
  frame_due (double_of_int 1)
    (LoopState (State inner_line true []) false (double_of_int 0) (double_of_int 0))
    = true ∧
  Forall castable [FramebufferSize 800 600] ∧
  ∃ l', loop_body Second.mouse_button_callback (Handles 3 0 1 2) (double_of_int 1)
          [FramebufferSize 800 600]
          (LoopState (State inner_line true []) false
             (double_of_int 0) (double_of_int 0))
        = Some (l', frame_calls (Handles 3 0 1 2) (step inner_line)
                    ++ [glViewport 0 0 800 600]).
Proof.
  assert (grid_wf (mapGrid (program (LoopState (State inner_line true []) false
                               (double_of_int 0) (double_of_int 0))))) as Hwf
    by (apply grid_wfb_true; vm_compute; reflexivity).
  assert (frame_due (double_of_int 1)
            (LoopState (State inner_line true []) false
               (double_of_int 0) (double_of_int 0)) = true) as Hdue
    by (vm_compute; reflexivity).
  assert (Forall castable [FramebufferSize 800 600]) as Hev
    by (repeat constructor).
  split; [exact Hwf|]. split; [exact Hdue|]. split; [exact Hev|].
  destruct (due_pass_draws_alive_cells (Handles 3 0 1 2) _ _ _ Hwf Hdue Hev)
    as (l' & Hrun & _).
  exists l'. exact Hrun.
Defined.

Lemma loop_body_second_safe h now events l :
  grid_wf (mapGrid (program l)) → Forall castable events →
  ∃ l' calls, loop_body Second.mouse_button_callback h now events l
                = Some (l', calls) ∧
              grid_wf (mapGrid (program l')).
Proof.
  intros Hwf Hev. destruct (frame_due now l) eqn:Hdue.
  - destruct (loop_body_due h now events l Hwf Hdue Hev)
      as (l' & Hrun & _ & _ & Hwf' & _).
    eexists _, _. split; [exact Hrun|exact Hwf'].
  - unfold loop_body. rewrite Hdue. eexists _, _. split; [reflexivity|exact Hwf].
Qed.

(** X9.  The second program never leaves its arrays: whatever the clock
    returns and whatever keys, clicks and resizes arrive, as long as the
    cursor positions are ones the casts accept, the loop runs through all
    its passes and the grid keeps its shape. *)
Theorem second_program_stays_in_bounds h inputs l :
  grid_wf (mapGrid (program l)) →
  Forall (λ input, Forall castable input.2) inputs →
  ∃ l' calls, main_loop Second.mouse_button_callback h inputs l
                = Some (l', calls) ∧
              grid_wf (mapGrid (program l')).
Proof.
  intros Hwf Hin. revert l Hwf.
  induction Hin as [|[now events] inputs Hev _ IH]; intros l Hwf.
  - by exists l, [].
  - cbn [main_loop]. destruct (windowShouldClose l); [by exists l, []|].
    destruct (loop_body_second_safe h now events l Hwf Hev)
      as (l1 & calls1 & Hrun1 & Hwf1).
    rewrite Hrun1. cbn [mbind option_bind].
    destruct (IH l1 Hwf1) as (l2 & calls2 & Hrun2 & Hwf2).
    rewrite Hrun2. cbn [mbind option_bind]. eexists _, _.
    split; [reflexivity|exact Hwf2].
Qed.

Lemma second_program_stays_in_bounds_witness :
  grid_wf (mapGrid (program (LoopState paused_empty false
                               (double_of_int 0) (double_of_int 0)))) ∧
  Forall (λ input : double * list event, Forall castable input.2)
    [(double_of_int 1,
      [MouseButton GLFW_MOUSE_BUTTON_LEFT GLFW_PRESS 0
         (double_of_int 100) (double_of_int 0);
       Key GLFW_KEY_SPACE 0 GLFW_PRESS 0]);
     (double_of_int 2, [Key GLFW_KEY_ESCAPE 0 GLFW_PRESS 0])] ∧
  ∃ l' calls,
    main_loop Second.mouse_button_callback (Handles 3 0 1 2)
      [(double_of_int 1,
        [MouseButton GLFW_MOUSE_BUTTON_LEFT GLFW_PRESS 0
           (double_of_int 100) (double_of_int 0);
         Key GLFW_KEY_SPACE 0 GLFW_PRESS 0]);
       (double_of_int 2, [Key GLFW_KEY_ESCAPE 0 GLFW_PRESS 0])]
      (LoopState paused_empty false (double_of_int 0) (double_of_int 0))
    = Some (l', calls).
Proof.
  assert (grid_wf (mapGrid (program (LoopState paused_empty false
                               (double_of_int 0) (double_of_int 0))))) as Hwf
    by (apply grid_wfb_true; vm_compute; reflexivity).
  assert (Forall (λ input : double * list event, Forall castable input.2)
    [(double_of_int 1,
      [MouseButton GLFW_MOUSE_BUTTON_LEFT GLFW_PRESS 0
         (double_of_int 100) (double_of_int 0);
       Key GLFW_KEY_SPACE 0 GLFW_PRESS 0]);
     (double_of_int 2, [Key GLFW_KEY_ESCAPE 0 GLFW_PRESS 0])]) as Hin.
  { repeat constructor; cbn; vm_compute; eexists; reflexivity. }
  split; [exact Hwf|]. split; [exact Hin|].
  destruct (second_program_stays_in_bounds (Handles 3 0 1 2) _ _ Hwf Hin)
    as (l' & calls & Hrun & _).
  exists l', calls. exact Hrun.
Defined.

Lemma sub_self_not_due now : SFleb fpsLimit (double_sub now now) = false.
Proof.
  destruct now as [[]|[]| |s m e]; try reflexivity.
  unfold double_sub, SFsub. rewrite Z.sub_diag. reflexivity.
Qed.

(** X10.  The throttle lets one frame through per reading of the clock:
    after any pass at the time [now], a further pass with the same reading
    steps nothing, draws nothing, polls no event and leaves the whole state
    as it is. *)
Theorem second_pass_is_idle mouse h now events events' l l' calls :
  loop_body mouse h now events l = Some (l', calls) →
  loop_body mouse h now events' l' = Some (l', []).
Proof.
  intros Hrun. unfold loop_body in Hrun.
  destruct (frame_due now l) eqn:Hdue.
  - destruct (frame (program l)) as [st|];
      cbn [mbind option_bind] in Hrun; [|discriminate].
    destruct (draw_all h st) as [drawn|];
      cbn [mbind option_bind] in Hrun; [|discriminate].
    destruct (glfwPollEvents mouse events _) as [[[st' cl] cs]|];
      cbn [mbind option_bind] in Hrun; [|discriminate].
    injection Hrun as <- <-.
    unfold loop_body, frame_due. cbn [lastFrameTime].
    by rewrite sub_self_not_due.
  - injection Hrun as <- <-. unfold loop_body.
    unfold frame_due in *. cbn [lastFrameTime]. by rewrite Hdue.
Qed.

Lemma second_pass_is_idle_witness :
  loop_body Second.mouse_button_callback (Handles 3 0 1 2) (double_of_int 1) []
    (LoopState running_empty false (double_of_int 0) (double_of_int 0))
  = Some (LoopState (State all_false true []) false
            (double_of_int 1) (double_of_int 1),
          frame_calls (Handles 3 0 1 2) all_false) ∧
  loop_body Second.mouse_button_callback (Handles 3 0 1 2) (double_of_int 1)
    [Key GLFW_KEY_SPACE 0 GLFW_PRESS 0]
    (LoopState (State all_false true []) false
       (double_of_int 1) (double_of_int 1))
  = Some (LoopState (State all_false true []) false
            (double_of_int 1) (double_of_int 1), []).
Proof.
  assert (loop_body Second.mouse_button_callback (Handles 3 0 1 2)
            (double_of_int 1) []
            (LoopState running_empty false (double_of_int 0) (double_of_int 0))
          = Some (LoopState (State all_false true []) false
                    (double_of_int 1) (double_of_int 1),
                  frame_calls (Handles 3 0 1 2) all_false)) as Hrun
    by (vm_compute; reflexivity).
  split; [exact Hrun|].
  exact (second_pass_is_idle _ _ _ _ [Key GLFW_KEY_SPACE 0 GLFW_PRESS 0] _ _ _ Hrun).
Defined.

(** ** More on the step *)

Lemma isAlive_tabulate f i j :
  isAlive (tabulate f) i j = insideb i && insideb j && f i j.
Proof.
  destruct (decide (inside i ∧ inside j)) as [[Hi Hj]|Hout].
  - pose proof (isAlive_inside (tabulate f) i j (tabulate_wf f) Hi Hj) as H.
    rewrite tabulate_read in H by done. injection H as <-.
    by rewrite (proj2 (insideb_true i)), (proj2 (insideb_true j)).
  - rewrite isAlive_outside by done.
    destruct (insideb i) eqn:Hi; [|done]. destruct (insideb j) eqn:Hj; [|done].
    rewrite insideb_true in Hi, Hj. tauto.
Qed.

Lemma isAlive_transpose g i j : isAlive (transpose g) i j = isAlive g j i.
Proof.
  unfold transpose. rewrite isAlive_tabulate.
  destruct (decide (inside i ∧ inside j)) as [[Hi Hj]|Hout].
  - by rewrite (proj2 (insideb_true i)), (proj2 (insideb_true j)).
  - rewrite (isAlive_outside g j i) by tauto. by rewrite andb_false_r.
Qed.

Lemma isAlive_flip g i j :
  isAlive (flip g) i j = isAlive g (numberOfSeparators - 1 - i) j.
Proof.
  unfold flip. rewrite isAlive_tabulate.
  destruct (decide (inside i ∧ inside j)) as [[Hi Hj]|Hout].
  - by rewrite (proj2 (insideb_true i)), (proj2 (insideb_true j)).
  - rewrite (isAlive_outside g (numberOfSeparators - 1 - i) j)
      by (unfold inside in *; lia).
    by rewrite andb_false_r.
Qed.

(** X11.  The step commutes with the symmetries of the square: stepping
    the grid mirrored in its diagonal, or with its rows in the opposite
    order, gives the mirror image of the stepped grid. *)
Theorem step_commutes_with_mirrors g :
  life_step (transpose g) = Some (transpose (step g)) ∧
  life_step (flip g) = Some (flip (step g)).
Proof.
  split.
  - rewrite life_step_spec by apply tabulate_wf. f_equal.
    apply grid_ext_alive; [apply step_wf|apply tabulate_wf|].
    intros i j Hi Hj. rewrite isAlive_transpose, !isAlive_step by done.
    rewrite isAlive_transpose. f_equal.
    rewrite !neighbour_count_sum, !isAlive_transpose. lia.
  - rewrite life_step_spec by apply tabulate_wf. f_equal.
    apply grid_ext_alive; [apply step_wf|apply tabulate_wf|].
    intros i j Hi Hj.
    rewrite isAlive_flip, !isAlive_step by (done || unfold inside in *; lia).
    rewrite isAlive_flip. f_equal.
    rewrite !neighbour_count_sum, !isAlive_flip.
    replace (numberOfSeparators - 1 - (i + -1)) with (numberOfSeparators - 1 - i + 1) by lia.
    replace (numberOfSeparators - 1 - (i + 0)) with (numberOfSeparators - 1 - i + 0) by lia.
    replace (numberOfSeparators - 1 - (i + 1)) with (numberOfSeparators - 1 - i + -1) by lia.
    lia.
Qed.

(** X12.  The next state of a cell depends on nothing but the cells at
    most one row and one column away from it: two grids that agree there
    agree on the cell after the step.  In particular nothing wraps around
    the border. *)
Theorem step_is_local g g' i j :
  grid_wf g → grid_wf g' → inside i → inside j →
  (∀ a b, i - 1 ≤ a ≤ i + 1 → j - 1 ≤ b ≤ j + 1 →
          isAlive g a b = isAlive g' a b) →
  ∃ n n', life_step g = Some n ∧ life_step g' = Some n' ∧
          grid_read n i j = grid_read n' i j.
Proof.
  intros Hwf Hwf' Hi Hj Hnear. exists (step g), (step g').
  split; [by apply life_step_spec|]. split; [by apply life_step_spec|].
  rewrite !isAlive_inside by (done || apply step_wf). f_equal.
  rewrite !isAlive_step, !neighbour_count_sum by done.
  rewrite !(Hnear (i + _)) by lia. by rewrite (Hnear i j) by lia.
Qed.

Lemma step_is_local_witness :
  grid_wf inner_line ∧ grid_wf edge_line ∧ inside 40 ∧ inside 40 ∧
  (∀ a b, 40 - 1 ≤ a ≤ 40 + 1 → 40 - 1 ≤ b ≤ 40 + 1 →
          isAlive inner_line a b = isAlive edge_line a b) ∧
  ∃ n n', life_step inner_line = Some n ∧ life_step edge_line = Some n' ∧
          grid_read n 40 40 = grid_read n' 40 40.
Proof.
  assert (grid_wf inner_line) as Hwf by (apply grid_wfb_true; vm_compute; reflexivity).
  assert (grid_wf edge_line) as Hwf' by (apply grid_wfb_true; vm_compute; reflexivity).
  assert (inside 40) as Hi by (unfold inside, numberOfSeparators; lia).
  assert (∀ a b, 40 - 1 ≤ a ≤ 40 + 1 → 40 - 1 ≤ b ≤ 40 + 1 →
                 isAlive inner_line a b = isAlive edge_line a b) as Hnear.
  { intros a b Ha Hb.
    assert (a = 39 ∨ a = 40 ∨ a = 41) as [ -> | [ -> | -> ] ] by lia;
      assert (b = 39 ∨ b = 40 ∨ b = 41) as [ -> | [ -> | -> ] ] by lia;
      vm_compute; reflexivity. }
  split; [exact Hwf|]. split; [exact Hwf'|]. split; [exact Hi|].
  split; [exact Hi|]. split; [exact Hnear|].
  exact (step_is_local inner_line edge_line 40 40 Hwf Hwf' Hi Hi Hnear).
Defined.

(** The comparisons of a 2 by 2 block along one axis. *)
Ltac settle_pair e m :=
  settle (m <=? e + -1); settle (m <=? e + 0); settle (m <=? e + 1);
  settle (m <=? e);
  settle (e + -1 <=? m + 1); settle (e + 0 <=? m + 1); settle (e + 1 <=? m + 1);
  settle (e <=? m + 1).

Lemma block_alive g r c :
  block g r c →
  ∀ i j, isAlive g i j =
         ((r <=? i) && (i <=? r + 1)) && ((c <=? j) && (j <=? c + 1)).
Proof.
  intros [_ H] i j. apply eq_true_iff_eq. rewrite H.
  rewrite !andb_true_iff, !Z.leb_le. tauto.
Qed.

(** X13.  A 2 by 2 block is a still life wherever it fits, also against an
    edge or in a corner of the grid: the step returns the grid it was
    given. *)
Theorem block_is_still g r c : block g r c → life_step g = Some g.
Proof.
  intros Hblock. pose proof Hblock as [Hwf _].
  rewrite life_step_spec by done. f_equal.
  apply grid_ext_alive; [apply step_wf|done|]. intros i j Hi Hj.
  rewrite isAlive_step, neighbour_count_sum by done.
  rewrite !(block_alive g r c Hblock). unfold life_rule. clear.
  assert (i < r - 1 ∨ i = r - 1 ∨ i = r ∨ i = r + 1 ∨ i = r + 2 ∨ r + 2 < i)
    as [?|[?|[?|[?|[?|?]]]]] by lia; settle_pair i r;
  (assert (j < c - 1 ∨ j = c - 1 ∨ j = c ∨ j = c + 1 ∨ j = c + 2 ∨ c + 2 < j)
     as [?|[?|[?|[?|[?|?]]]]] by lia; settle_pair j c; reflexivity).
Qed.

Lemma block_is_still_witness :
  block corner_block 0 0 ∧ life_step corner_block = Some corner_block.
Proof.
  assert (block corner_block 0 0) as Hblock.
  { split; [apply grid_wfb_true; vm_compute; reflexivity|]. intros i j.
    destruct (decide (inside i ∧ inside j)) as [[Hi Hj]|Hout].
    - assert (all_cells (λ i j, eqb (isAlive corner_block i j)
                (((0 <=? i) && (i <=? 0 + 1)) && ((0 <=? j) && (j <=? 0 + 1))))
              = true) as Hall by (vm_compute; reflexivity).
      pose proof (all_cells_true _ Hall i j Hi Hj) as H. cbn beta in H.
      apply eqb_prop in H. rewrite H. rewrite !andb_true_iff, !Z.leb_le. tauto.
    - rewrite isAlive_outside by done. split; [done|].
      unfold inside, numberOfSeparators in *. lia. }
  split; [exact Hblock|]. exact (block_is_still corner_block 0 0 Hblock).
Defined.






(** ** The two programs, and the way out *)




Lemma poll_close mouse events st cl cs st' cl' cs' scancode mods :
  glfwPollEvents mouse events (st, cl, cs) = Some (st', cl', cs') →
  cl = true ∨ Key GLFW_KEY_ESCAPE scancode GLFW_PRESS mods ∈ events →
  cl' = true.
Proof.
  revert st cl cs. induction events as [|e events IH]; intros st cl cs Hrun Hwhy.
  - cbn in Hrun. injection Hrun as <- <- <-.
    destruct Hwhy as [|Hin]; [done|]. by apply elem_of_nil in Hin.
  - cbn [glfwPollEvents] in Hrun.
    destruct (dispatch mouse (st, cl, cs) e) as [[[st1 cl1] cs1]|] eqn:He;
      cbn [mbind option_bind] in Hrun; [|discriminate].
    apply (IH _ _ _ Hrun).
    destruct Hwhy as [->|Hin].
    + left. destruct e as [key sc action m| b a m xp yp |w ht]; cbn [dispatch] in He.
      * pose proof (key_callback_cases st true key sc action m)
          as (_ & _ & _ & Hclose).
        destruct (key_callback st true key sc action m) as [st2 cl2].
        injection He as <- <- <-. apply Hclose. by left.
      * destruct (mouse st b a xp yp); cbn in He; [|discriminate].
        by injection He as <- <- <-.
      * by injection He as <- <- <-.
    + apply elem_of_cons in Hin as [<-|Hin]; [|by right].
      left. cbn [dispatch] in He.
      pose proof (key_callback_cases st cl GLFW_KEY_ESCAPE scancode GLFW_PRESS mods)
        as (_ & _ & _ & Hclose).
      destruct (key_callback st cl GLFW_KEY_ESCAPE scancode GLFW_PRESS mods)
        as [st2 cl2].
      injection He as <- <- <-. apply Hclose. by right.
Qed.

(** X17.  ESCAPE ends the program: when a pass that is due polls a press
    of ESCAPE, whatever else it polls before or after it, the window is
    marked for closing and the loop makes no further pass, so the state
    that pass left is final. *)
Theorem escape_ends_the_loop mouse h now events inputs l l' calls scancode mods :
  windowShouldClose l = false → frame_due now l = true →
  Key GLFW_KEY_ESCAPE scancode GLFW_PRESS mods ∈ events →
  loop_body mouse h now events l = Some (l', calls) →
  windowShouldClose l' = true ∧
  main_loop mouse h ((now, events) :: inputs) l = Some (l', calls).
Proof.
  intros Hopen Hdue Hesc Hrun.
  assert (windowShouldClose l' = true) as Hclosed.
  { unfold loop_body in Hrun. rewrite Hdue in Hrun.
    destruct (frame (program l)) as [st|];
      cbn [mbind option_bind] in Hrun; [|discriminate].
    destruct (draw_all h st) as [drawn|];
      cbn [mbind option_bind] in Hrun; [|discriminate].
    destruct (glfwPollEvents mouse events _) as [[[st' cl] cs]|] eqn:Hpoll;
      cbn [mbind option_bind] in Hrun; [|discriminate].
    injection Hrun as <- <-. cbn [windowShouldClose].
    eapply poll_close; [exact Hpoll|by right]. }
  split; [done|].
  cbn [main_loop]. rewrite Hopen, Hrun. cbn [mbind option_bind].
  destruct inputs as [|[now' events'] inputs'];
    cbn [main_loop mbind option_bind].
  - by rewrite app_nil_r.
  - rewrite Hclosed. cbn [mbind option_bind]. by rewrite app_nil_r.
Qed.

Lemma escape_ends_the_loop_witness :
  windowShouldClose (LoopState paused_empty false (double_of_int 0) (double_of_int 0))
    = false ∧
  frame_due (double_of_int 1)
    (LoopState paused_empty false (double_of_int 0) (double_of_int 0)) = true ∧
  Key GLFW_KEY_ESCAPE 9 GLFW_PRESS 0
    ∈ [Key GLFW_KEY_ESCAPE 9 GLFW_PRESS 0; Key GLFW_KEY_SPACE 65 GLFW_PRESS 0] ∧
  main_loop Second.mouse_button_callback (Handles 3 0 1 2)
    [(double_of_int 1,
      [Key GLFW_KEY_ESCAPE 9 GLFW_PRESS 0; Key GLFW_KEY_SPACE 65 GLFW_PRESS 0]);
     (double_of_int 2, [])]
    (LoopState paused_empty false (double_of_int 0) (double_of_int 0))
  = Some (LoopState (State all_false true []) true
            (double_of_int 1) (double_of_int 1),
          frame_calls (Handles 3 0 1 2) all_false).
Proof.
  assert (frame_due (double_of_int 1)
            (LoopState paused_empty false (double_of_int 0) (double_of_int 0))
          = true) as Hdue by (vm_compute; reflexivity).
  assert (Key GLFW_KEY_ESCAPE 9 GLFW_PRESS 0
            ∈ [Key GLFW_KEY_ESCAPE 9 GLFW_PRESS 0;
               Key GLFW_KEY_SPACE 65 GLFW_PRESS 0]) as Hesc by left.
  assert (loop_body Second.mouse_button_callback (Handles 3 0 1 2)
            (double_of_int 1)
            [Key GLFW_KEY_ESCAPE 9 GLFW_PRESS 0; Key GLFW_KEY_SPACE 65 GLFW_PRESS 0]
            (LoopState paused_empty false (double_of_int 0) (double_of_int 0))
          = Some (LoopState (State all_false true []) true
                    (double_of_int 1) (double_of_int 1),
                  frame_calls (Handles 3 0 1 2) all_false)) as Hrun
    by (vm_compute; reflexivity).
  split; [reflexivity|]. split; [exact Hdue|]. split; [exact Hesc|].
  exact (proj2 (escape_ends_the_loop _ _ _ _ [(double_of_int 2, [])]
                  (LoopState paused_empty false (double_of_int 0) (double_of_int 0))
                  _ _ _ _ eq_refl Hdue Hesc Hrun)).
Defined.
